(** * Akamai cache tester: a shallow embedding of [app.py]

    The development follows the layout of the application:

    - [Py]: the Python builtins the application relies on (substring test,
      [str.split], [str.lower], [int], [range], slicing, exceptions);
    - [Classifier]: the decision ladder inside [check_akamai_cache];
    - [Re]: the fragment of the [re] module used by [detect_aem];
    - [Scorer]: [detect_aem];
    - [Probe]: [check_akamai_cache];
    - [Run]: the [/test] route, [test_sitemap] (batching and summary);
    - [Sitemap]: the sitemap resolver, [parse_sitemap];
    - [Spec]: the vocabulary of the specification.

    Conventions.  A Python [str] is a Rocq [string]; a character is read as a
    code point below 256, which is what [http.client] produces for header
    values.  Python [int] is [Z].  Python [float] is idealised as an exact
    rational [Q].  A Python [dict] whose order is observable is an
    association list in insertion order. *)

From Stdlib Require Import String Ascii List ZArith QArith Qround Qabs Bool Lia.
From Stdlib Require Import Permutation.
From Stdlib Require Import DecimalString Lqa.
From Stdlib Require DecimalNat DecimalFacts.
Import ListNotations.

Local Close Scope Q_scope.
Local Open Scope string_scope.
Local Open Scope list_scope.

(* ===================================================================== *)
(** * Python builtins *)
(* ===================================================================== *)

Module Py.

(** ** Exceptions *)

(** The exception classes that can arise in the modelled code.  All of them
    derive from [Exception]; the payload is [str(e)]. *)
Inductive exn : Type :=
| ValueError (msg : string)
| IndexError (msg : string)
| ZeroDivisionError (msg : string)
| AttributeError (msg : string)
| OtherException (msg : string).

Definition str_of_exn (e : exn) : string :=
  match e with
  | ValueError m | IndexError m | ZeroDivisionError m | AttributeError m
  | OtherException m => m
  end.

Inductive result (A : Type) : Type :=
| Ok (a : A)
| Raise (e : exn).

Arguments Ok {A} a.
Arguments Raise {A} e.

Definition bind {A B} (m : result A) (f : A -> result B) : result B :=
  match m with
  | Ok a => f a
  | Raise e => Raise e
  end.

Declare Scope py_scope.
Delimit Scope py_scope with py.
Notation "x <- m ;; k" := (bind m (fun x => k))
  (at level 61, m at next level, right associativity) : py_scope.

(** ** Strings *)

(** [sub in s]. *)
Fixpoint str_in (sub s : string) : bool :=
  if String.prefix sub s then true
  else match s with
       | EmptyString => false
       | String _ s' => str_in sub s'
       end.

(** [s.split(sep)] for a non-empty [sep]: left to right, non-overlapping.
    [skip] counts the characters of a separator still to be dropped and
    [cur] is the piece being built. *)
Fixpoint split_aux (sep : string) (skip : nat) (cur s : string) : list string :=
  match s with
  | EmptyString => [cur]
  | String c s' =>
      match skip with
      | S k => split_aux sep k cur s'
      | O => if String.prefix sep s
             then cur :: split_aux sep (String.length sep - 1) "" s'
             else split_aux sep 0 (cur ++ String c "") s'
      end
  end.

Definition split (sep s : string) : list string := split_aux sep 0 "" s.

(** [l[i]] for [i >= 0]. *)
Definition index {A} (l : list A) (i : nat) : result A :=
  match nth_error l i with
  | Some a => Ok a
  | None => Raise (IndexError "list index out of range")
  end.

(** [str.lower] on code points below 256: A-Z, and the Latin-1 capitals
    U+00C0-U+00D6 and U+00D8-U+00DE, move up by 32. *)
Definition lower_char (c : ascii) : ascii :=
  let n := nat_of_ascii c in
  if (((65 <=? n) && (n <=? 90)) || ((192 <=? n) && (n <=? 214))
      || ((216 <=? n) && (n <=? 222)))%nat
  then ascii_of_nat (n + 32) else c.

Fixpoint lower (s : string) : string :=
  match s with
  | EmptyString => EmptyString
  | String c s' => String (lower_char c) (lower s')
  end.

(** [str.isspace] on code points below 256. *)
Definition isspace (c : ascii) : bool :=
  let n := nat_of_ascii c in
  (((9 <=? n) && (n <=? 13)) || ((28 <=? n) && (n <=? 32))
   || (n =? 133) || (n =? 160))%nat.

Fixpoint drop_while (p : ascii -> bool) (l : list ascii) : list ascii :=
  match l with
  | c :: l' => if p c then drop_while p l' else l
  | [] => []
  end.

Definition strip_with (p : ascii -> bool) (s : string) : string :=
  string_of_list_ascii
    (rev (drop_while p (rev (drop_while p (list_ascii_of_string s))))).

(** [s.strip()]. *)
Definition strip (s : string) : string := strip_with isspace s.

(** Python truth value of a string. *)
Definition truthy (s : string) : bool :=
  match s with EmptyString => false | _ => true end.

(** ** Sequences *)

(** [range(start, stop, step)] as the finite sequence it stands for. *)
Definition range (start stop step : Z) : result (list Z) :=
  if (step =? 0)%Z then Raise (ValueError "range() arg 3 must not be zero")
  else
    let n :=
      if (0 <? step)%Z
      then (if (start <? stop)%Z then (stop - start - 1) / step + 1 else 0)%Z
      else (if (stop <? start)%Z then (start - stop - 1) / (- step) + 1 else 0)%Z in
    Ok (map (fun k => (start + Z.of_nat k * step)%Z) (seq 0 (Z.to_nat n))).

(** A slice bound brought into [0 .. len]. *)
Definition clamp (len i : Z) : nat :=
  Z.to_nat (if (i <? 0)%Z then Z.max 0 (len + i) else Z.min i len).

(** [l[lo:hi]]. *)
Definition slice {A} (l : list A) (lo hi : Z) : list A :=
  let len := Z.of_nat (List.length l) in
  firstn (clamp len hi - clamp len lo) (skipn (clamp len lo) l).

(** [sum(1 for x in l if p(x))]. *)
Definition count {A} (p : A -> bool) (l : list A) : Z :=
  Z.of_nat (List.length (filter p l)).

(** ** [int(s)] *)

(** The white space [int] drops around a literal, on code points below
    256: tab to carriage return, space, U+0085 and U+00A0. *)
Definition int_space (c : ascii) : bool :=
  let n := nat_of_ascii c in
  (((9 <=? n) && (n <=? 13)) || (n =? 32) || (n =? 133) || (n =? 160))%nat.

Definition is_digit (c : ascii) : bool :=
  let n := nat_of_ascii c in ((48 <=? n) && (n <=? 57))%nat.

Definition digit_val (c : ascii) : Z := (Z.of_nat (nat_of_ascii c) - 48)%Z.

(** Decimal digits, with single underscores allowed between digits.
    [prev] tells whether the previous character was a digit. *)
Fixpoint digits (acc : Z) (prev : bool) (l : list ascii) : option Z :=
  match l with
  | [] => if prev then Some acc else None
  | c :: l' =>
      if is_digit c then digits (10 * acc + digit_val c)%Z true l'
      else if Ascii.eqb c "_" then (if prev then digits acc false l' else None)
      else None
  end.

(** Default of [sys.int_max_str_digits]. *)
Definition int_max_str_digits : nat := 4300.

(** [int(s)] in base 10: surrounding white space is dropped, one sign is
    allowed, a literal of more than [int_max_str_digits] digits is refused,
    and every failure is a [ValueError]. *)
Definition int (s : string) : result Z :=
  let t := list_ascii_of_string (strip_with int_space s) in
  let '(sign, body) :=
    match t with
    | c :: l => if Ascii.eqb c "+" then (1%Z, l)
                else if Ascii.eqb c "-" then ((-1)%Z, l)
                else (1%Z, t)
    | [] => (1%Z, t)
    end in
  match digits 0%Z false body with
  | Some n =>
      if (int_max_str_digits <? List.length (filter is_digit body))%nat
      then Raise (ValueError "Exceeds the limit for integer string conversion")
      else Ok (sign * n)%Z
  | None => Raise (ValueError ("invalid literal for int() with base 10: " ++ s))
  end.

End Py.

Import Py.
Local Open Scope py_scope.

(* ===================================================================== *)
(** * Cache status classifier *)
(* ===================================================================== *)

Module Classifier.

(** The four extracted header values the ladder reads
    ([check_akamai_cache], the [response.headers.get] lines). *)
Record Signals : Type := mkSignals {
  x_cache : string;
  x_check_cacheable : string;
  age : string;
  x_timer : string
}.

(** The pair [(cache_hit, response_time_ms)] after the ladder. *)
Definition Verdict : Type := (string * option Z)%type.

(** [x_timer.split('VE')[1].split(',')[0]]. *)
Definition ve_part (x_timer : string) : result string :=
  seg <- index (split "VE" x_timer) 1 ;;
  index (split "," seg) 0.

(** The body of the [try] of method 3.  [response_time_ms] is assigned
    before the comparisons, and neither variable is assigned when [int]
    raises. *)
Definition timing_try (x_timer : string) : result Verdict :=
  p <- ve_part x_timer ;;
  response_time_ms <- int p ;;
  if (response_time_ms <? 100)%Z then
    Ok ("HIT (inferred from timing)", Some response_time_ms)
  else if (response_time_ms >? 500)%Z then
    Ok ("MISS (inferred from timing)", Some response_time_ms)
  else
    Ok ("UNKNOWN (timing inconclusive)", Some response_time_ms).

(** [try: ... except (ValueError, IndexError): pass], started from
    [cache_hit = 'UNKNOWN'] and [response_time_ms = None]. *)
Definition timing (x_timer : string) : result Verdict :=
  match timing_try x_timer with
  | Ok v => Ok v
  | Raise (ValueError _) | Raise (IndexError _) => Ok ("UNKNOWN", None)
  | Raise e => Raise e
  end.

(** The [if]/[elif] chain of [check_akamai_cache]. *)
Definition determine_cache_hit (s : Signals) : result Verdict :=
  if str_in "TCP_HIT" (x_cache s) || str_in "TCP_MEM_HIT" (x_cache s) then
    Ok ("HIT", None)
  else if str_in "TCP_MISS" (x_cache s) then
    Ok ("MISS", None)
  else if str_in "TCP_REFRESH_HIT" (x_cache s) then
    Ok ("REFRESH_HIT", None)
  else if str_in "TCP_REFRESH_MISS" (x_cache s) then
    Ok ("REFRESH_MISS", None)
  else if String.eqb (x_check_cacheable s) "NO" then
    Ok ("NOT_CACHEABLE", None)
  else if truthy (age s) && negb (String.eqb (age s) "0") then
    Ok ("HIT", None)
  else if negb (String.eqb (x_timer s) "NOT_FOUND") && str_in "VE" (x_timer s) then
    timing (x_timer s)
  else
    Ok ("UNKNOWN", None).

(** ** The chain as a list of rules *)

(** The six header conditions of the chain, in the order of the chain, each
    with the verdict of its branch.  The sixth is the test of the source,
    [age and age != '0']: the age value is a non-empty string other than
    0. *)
Definition ladder : list ((Signals -> bool) * string) :=
  [ (fun s => str_in "TCP_HIT" (x_cache s) || str_in "TCP_MEM_HIT" (x_cache s), "HIT");
    (fun s => str_in "TCP_MISS" (x_cache s), "MISS");
    (fun s => str_in "TCP_REFRESH_HIT" (x_cache s), "REFRESH_HIT");
    (fun s => str_in "TCP_REFRESH_MISS" (x_cache s), "REFRESH_MISS");
    (fun s => String.eqb (x_check_cacheable s) "NO", "NOT_CACHEABLE");
    (fun s => truthy (age s) && negb (String.eqb (age s) "0"), "HIT") ].

Fixpoint first_match (rules : list ((Signals -> bool) * string)) (s : Signals)
  : option string :=
  match rules with
  | [] => None
  | (p, v) :: rest => if p s then Some v else first_match rest s
  end.

(** Rule 7 applies when the timing header is present and has a [VE]
    segment. *)
Definition timing_rule_applies (s : Signals) : bool :=
  negb (String.eqb (x_timer s) "NOT_FOUND") && str_in "VE" (x_timer s).

(** The integer after [VE], when there is one. *)
Definition elapsed_ms (x_timer : string) : result Z :=
  p <- ve_part x_timer ;; int p.

(** The verdict rule 7 gives for an elapsed time [t]. *)
Definition timing_verdict (t : Z) : Verdict :=
  if (t <? 100)%Z then ("HIT (inferred from timing)", Some t)
  else if (t >? 500)%Z then ("MISS (inferred from timing)", Some t)
  else ("UNKNOWN (timing inconclusive)", Some t).

Definition rule7 (s : Signals) : option Verdict :=
  if timing_rule_applies s then
    match elapsed_ms (x_timer s) with
    | Ok t => Some (timing_verdict t)
    | Raise _ => None
    end
  else None.

(** The ladder read top to bottom: the first of rules 1 to 6 that matches,
    else rule 7, else rule 8. *)
Definition ladder_verdict (s : Signals) : Verdict :=
  match first_match ladder s with
  | Some v => (v, None)
  | None =>
      match rule7 s with
      | Some v => v
      | None => ("UNKNOWN", None)
      end
  end.

(** The nine verdicts. *)
Definition verdicts : list string :=
  [ "HIT"; "MISS"; "REFRESH_HIT"; "REFRESH_MISS"; "NOT_CACHEABLE"; "UNKNOWN";
    "UNKNOWN (timing inconclusive)"; "HIT (inferred from timing)";
    "MISS (inferred from timing)" ].

End Classifier.

(* ===================================================================== *)
(** * The fragment of [re] used by the scorer *)
(* ===================================================================== *)

Module Re.

(** Character sets: [.], [[...]] and [[^...]] given as inclusive ranges. *)
Inductive cset : Type :=
| Any
| OneOf (ranges : list (ascii * ascii))
| NoneOf (ranges : list (ascii * ascii)).

(** Pattern syntax.  Every pattern of the scorer has at most one capturing
    group, so [Grp] always is group 1; repetition is only applied to
    character sets. *)
Inductive regex : Type :=
| Lit (s : string)                           (* literal text *)
| Chr (cs : cset)                            (* one character of a set *)
| Rep (greedy : bool) (min : nat) (cs : cset) (* cs* cs+ and cs*? *)
| Cat (r1 r2 : regex)
| Alt (r1 r2 : regex)
| Grp (r : regex)                            (* ( ... ) *)
| Bnd                                        (* \b *)
| Eos.                                       (* $ *)

Record flags : Type := mkFlags { IGNORECASE : bool; DOTALL : bool }.

Definition no_flags : flags := mkFlags false false.

(** A match object: [m.group(0)] and [m.group(1)]. *)
Record Match : Type := mkMatch { group_0 : string; group_1 : string }.

(** What the scorer asks of the [re] module. *)
Record Engine : Type := mkEngine {
  findall : regex -> flags -> string -> list string;
  search : regex -> flags -> string -> option Match
}.

(** ** An executable backtracking matcher *)

Definition upper_char (c : ascii) : ascii :=
  let n := nat_of_ascii c in
  if (((97 <=? n) && (n <=? 122)) || ((224 <=? n) && (n <=? 246))
      || ((248 <=? n) && (n <=? 254)))%nat
  then ascii_of_nat (n - 32) else c.

Definition in_range (c : ascii) (r : ascii * ascii) : bool :=
  ((nat_of_ascii (fst r) <=? nat_of_ascii c)
   && (nat_of_ascii c <=? nat_of_ascii (snd r)))%nat.

Definition in_ranges (f : flags) (rs : list (ascii * ascii)) (c : ascii) : bool :=
  existsb (in_range c) rs
  || (IGNORECASE f
      && (existsb (in_range (lower_char c)) rs
          || existsb (in_range (upper_char c)) rs)).

Definition newline : ascii := ascii_of_nat 10.

Definition cs_mem (f : flags) (cs : cset) (c : ascii) : bool :=
  match cs with
  | Any => DOTALL f || negb (Ascii.eqb c newline)
  | OneOf rs => in_ranges f rs c
  | NoneOf rs => negb (in_ranges f rs c)
  end.

Definition chr_eq (f : flags) (a b : ascii) : bool :=
  if IGNORECASE f then Ascii.eqb (lower_char a) (lower_char b)
  else Ascii.eqb a b.

(** Word characters for [\b]: alphanumerics and the underscore. *)
Definition is_word (c : ascii) : bool :=
  let n := nat_of_ascii c in
  (((48 <=? n) && (n <=? 57)) || ((65 <=? n) && (n <=? 90)) || (n =? 95)
   || ((97 <=? n) && (n <=? 122)) || (n =? 170) || (n =? 178) || (n =? 179)
   || (n =? 181) || (n =? 185) || (n =? 186) || ((188 <=? n) && (n <=? 190))
   || ((192 <=? n) && (n <=? 214)) || ((216 <=? n) && (n <=? 246))
   || (248 <=? n))%nat.

Definition opt_word (o : option ascii) : bool :=
  match o with Some c => is_word c | None => false end.

Definition head (s : string) : option ascii :=
  match s with String c _ => Some c | EmptyString => None end.

(** The matcher position: the character before the cursor and the text
    after it. *)
Definition cont (R : Type) : Type := option ascii -> string -> option string -> option R.

Fixpoint lit {R} (f : flags) (l : string) (k : cont R)
         (prev : option ascii) (s : string) (cap : option string) : option R :=
  match l with
  | EmptyString => k prev s cap
  | String a l' =>
      match s with
      | String c s' => if chr_eq f a c then lit f l' k (Some c) s' cap else None
      | EmptyString => None
      end
  end.

Fixpoint rep {R} (f : flags) (greedy : bool) (cs : cset) (min : nat) (k : cont R)
         (prev : option ascii) (s : string) (cap : option string) : option R :=
  let more (_ : unit) :=
    match s with
    | String c s' =>
        if cs_mem f cs c then rep f greedy cs (pred min) k (Some c) s' cap else None
    | EmptyString => None
    end in
  let stop (_ : unit) :=
    match min with O => k prev s cap | S _ => None end in
  if greedy
  then match more tt with Some x => Some x | None => stop tt end
  else match stop tt with Some x => Some x | None => more tt end.

Definition consumed (before after : string) : string :=
  substring 0 (String.length before - String.length after) before.

Fixpoint run {R} (r : regex) (f : flags) (k : cont R)
         (prev : option ascii) (s : string) (cap : option string) : option R :=
  match r with
  | Lit l => lit f l k prev s cap
  | Chr cs =>
      match s with
      | String c s' => if cs_mem f cs c then k (Some c) s' cap else None
      | EmptyString => None
      end
  | Rep greedy min cs => rep f greedy cs min k prev s cap
  | Cat r1 r2 => run r1 f (fun p s' c => run r2 f k p s' c) prev s cap
  | Alt r1 r2 =>
      match run r1 f k prev s cap with
      | Some x => Some x
      | None => run r2 f k prev s cap
      end
  | Grp r1 => run r1 f (fun p s' _ => k p s' (Some (consumed s s'))) prev s cap
  | Bnd => if xorb (opt_word prev) (opt_word (head s)) then k prev s cap else None
  | Eos =>
      if String.eqb s "" || String.eqb s (String newline "")
      then k prev s cap else None
  end.

(** A match starting exactly at the cursor: the text left over and group 1. *)
Definition match_at (r : regex) (f : flags) (prev : option ascii) (s : string)
  : option (string * option string) :=
  run r f (fun _ s' cap => Some (s', cap)) prev s None.

Fixpoint has_group (r : regex) : bool :=
  match r with
  | Grp _ => true
  | Cat r1 r2 | Alt r1 r2 => has_group r1 || has_group r2
  | _ => false
  end.

(** The item [findall] reports for one match. *)
Definition item (r : regex) (s rest : string) (cap : option string) : string :=
  if has_group r then match cap with Some g => g | None => "" end
  else consumed s rest.

(** Left-to-right, non-overlapping scan.  [skip] counts the characters of
    the last match still to be stepped over. *)
Fixpoint findall_aux (r : regex) (f : flags) (skip : nat)
         (prev : option ascii) (s : string) : list string :=
  match s with
  | EmptyString =>
      match skip with
      | O => match match_at r f prev s with
             | Some (rest, cap) => [item r s rest cap]
             | None => []
             end
      | S _ => []
      end
  | String c s' =>
      match skip with
      | S k => findall_aux r f k (Some c) s'
      | O =>
          match match_at r f prev s with
          | Some (rest, cap) =>
              item r s rest cap
              :: findall_aux r f (pred (String.length s - String.length rest)) (Some c) s'
          | None => findall_aux r f 0 (Some c) s'
          end
      end
  end.

Fixpoint search_aux (r : regex) (f : flags) (prev : option ascii) (s : string)
  : option Match :=
  match match_at r f prev s with
  | Some (rest, cap) =>
      Some (mkMatch (consumed s rest) (match cap with Some g => g | None => "" end))
  | None =>
      match s with
      | String c s' => search_aux r f (Some c) s'
      | EmptyString => None
      end
  end.

(** The executable engine. *)
Definition py_re : Engine :=
  mkEngine (fun r f s => findall_aux r f 0 None s)
           (fun r f s => search_aux r f None s).

(** ** Pattern building blocks *)

Definition dq : ascii := ascii_of_nat 34.   (* the double quote *)
Definition sq : ascii := ascii_of_nat 39.   (* the single quote *)

Definition quote : cset := OneOf [(dq, dq); (sq, sq)].
Definition not_quote : cset := NoneOf [(dq, dq); (sq, sq)].
Definition az_dash : cset := OneOf [("a"%char, "z"%char); ("-"%char, "-"%char)].
Definition az : cset := OneOf [("a"%char, "z"%char)].

Fixpoint cat (rs : list regex) : regex :=
  match rs with
  | [] => Lit ""
  | [r] => r
  | r :: rest => Cat r (cat rest)
  end.

Fixpoint alt (rs : list regex) : regex :=
  match rs with
  | [] => Lit ""
  | [r] => r
  | r :: rest => Alt r (alt rest)
  end.

Definition star (cs : cset) : regex := Rep true 0 cs.
Definition plus (cs : cset) : regex := Rep true 1 cs.
Definition lazy_star (cs : cset) : regex := Rep false 0 cs.

End Re.

Import Re.

(* ===================================================================== *)
(** * Content signature scorer *)
(* ===================================================================== *)

(** The attributes of a [requests.Response] the application reads.
    [headers] lists the items of the case-insensitive header dictionary. *)
Module Http.

Record Response : Type := mkResponse {
  status_code : Z;
  headers : list (string * string);
  text : string;
  url : string
}.

End Http.

Module Scorer.

(** The evidence dictionary, in insertion order. *)
Definition Evidence : Type := list (string * list string).

(** [evidence[k].extend(xs)]. *)
Fixpoint extend (k : string) (xs : list string) (ev : Evidence) : Evidence :=
  match ev with
  | [] => []
  | (k', v) :: rest =>
      if String.eqb k' k then (k', v ++ xs) :: rest
      else (k', v) :: extend k xs rest
  end.

(** [list(set(xs))].  The iteration order of a Python set is unspecified;
    the model keeps the distinct elements in a fixed order. *)
Definition list_set (xs : list string) : list string := nodup string_dec xs.

(** Truth value of a list. *)
Definition nonempty {A} (l : list A) : bool :=
  match l with [] => false | _ => true end.

(** [d[k] = v] on an insertion-ordered dictionary. *)
Fixpoint dict_set (k v : string) (d : list (string * string)) : list (string * string) :=
  match d with
  | [] => [(k, v)]
  | (k', v') :: rest =>
      if String.eqb k' k then (k', v) :: rest else (k', v') :: dict_set k v rest
  end.

(** [{k.lower(): v for k, v in items}]. *)
Definition lower_keys (items : list (string * string)) : list (string * string) :=
  fold_left (fun d kv => dict_set (lower (fst kv)) (snd kv) d) items [].

(** [str(n)] for a length. *)
Definition str_of_nat (n : nat) : string :=
  DecimalString.NilEmpty.string_of_uint (Nat.to_uint n).

(** The two accumulators of [detect_aem]. *)
Record State : Type := mkState { confidence : Q; evidence : Evidence }.

(** One [if] block: [if cond: <update>]. *)
Definition when (cond : bool) (f : State -> State) (st : State) : State :=
  if cond then f st else st.

(** The body of such a block:
    [evidence[cat].extend(snippets); confidence += inc]. *)
Definition found (cat : string) (snippets : list string) (inc : Q) (st : State) : State :=
  mkState (confidence st + inc)%Q (extend cat snippets (evidence st)).

(** [min(a, b)]: the first argument unless the second is smaller. *)
Definition py_min (a b : Q) : Q := if Qle_bool a b then a else b.

(** ** The patterns *)

(* class=[QUOTE][^QUOTE]*\b(cq-[a-z\-]+)\b[^QUOTE]*[QUOTE] , QUOTE = both quotes *)
Definition re_cq_classes : regex :=
  cat [Lit "class="; Chr quote; star not_quote; Bnd;
       Grp (cat [Lit "cq-"; plus az_dash]); Bnd; star not_quote; Chr quote].

(* the same with aem- *)
Definition re_aem_classes : regex :=
  cat [Lit "class="; Chr quote; star not_quote; Bnd;
       Grp (cat [Lit "aem-"; plus az_dash]); Bnd; star not_quote; Chr quote].

(* (data-cq-[a-z\-]+)= *)
Definition re_data_attrs : regex :=
  cat [Grp (cat [Lit "data-cq-"; plus az_dash]); Lit "="].

(* data-path=[QUOTE][^QUOTE]*[QUOTE] *)
Definition re_data_path : regex :=
  cat [Lit "data-path="; Chr quote; star not_quote; Chr quote].

(* <!--.*?(adobe experience manager|day cq|/apps/|/libs/|/content/).*?--> *)
Definition re_aem_comments : regex :=
  cat [Lit "<!--"; lazy_star Any;
       Grp (alt [Lit "adobe experience manager"; Lit "day cq"; Lit "/apps/";
                 Lit "/libs/"; Lit "/content/"]);
       lazy_star Any; Lit "-->"].

(* (/etc\.clientlibs/[^QUOTE]+\.js) and its three siblings *)
Definition re_clientlib (root ext : string) : regex :=
  Grp (cat [Lit root; plus not_quote; Lit ext]).

(* (granite\.js|coral\.js|graniteui) *)
Definition re_granite : regex :=
  Grp (alt [Lit "granite.js"; Lit "coral.js"; Lit "graniteui"]).

(* (/libs/[^QUOTE]+) and (/apps/[^QUOTE]+) *)
Definition re_path (root : string) : regex :=
  Grp (cat [Lit root; plus not_quote]).

(* \.html(\?|$) *)
Definition re_html_ext : regex :=
  cat [Lit ".html"; Grp (alt [Lit "?"; Eos])].

(* \.[a-z]+\.[a-z]+\.html *)
Definition re_selector : regex :=
  cat [Lit "."; plus az; Lit "."; plus az; Lit ".html"].

(* <meta[^>]+name=[QUOTE]generator[QUOTE][^>]+content=[QUOTE]([^QUOTE]+)[QUOTE] *)
Definition re_meta_generator : regex :=
  let not_gt := NoneOf [(">"%char, ">"%char)] in
  cat [Lit "<meta"; plus not_gt; Lit "name="; Chr quote; Lit "generator";
       Chr quote; plus not_gt; Lit "content="; Chr quote;
       Grp (plus not_quote); Chr quote].

(* wcmmode *)
Definition re_wcmmode : regex := Lit "wcmmode".

Definition is_some {A} (o : option A) : bool :=
  match o with Some _ => true | None => false end.

(** ** [detect_aem] *)

(** One turn of [for header, value in headers.items()]. *)
Definition header_step (st : State) (hv : string * string) : State :=
  let '(header, value) := hv in
  if existsb (fun x => str_in x header) ["x-aem"; "x-cq"] then
    found "headers" [(header ++ ": " ++ value)%string] 0.3 st
  else if str_in "day cq" (lower value) then
    found "headers" [(header ++ ": " ++ value)%string] 0.25 st
  else st.

(** The accumulators just before the cap and the clean-up. *)
Definition scan (re : Engine) (response : Http.Response) : State :=
  let st := mkState 0.0
    [ ("html_classes", []); ("data_attributes", []); ("html_comments", []);
      ("headers", []); ("javascript_paths", []); ("css_paths", []);
      ("url_patterns", []); ("meta_tags", []) ] in
  let html_content := lower (Http.text response) in
  let original_html := Http.text response in
  let headers := lower_keys (Http.headers response) in
  let url := Http.url response in
  (* HTML classes *)
  let cq_classes := findall re re_cq_classes no_flags html_content in
  let st := when (nonempty cq_classes)
                 (found "html_classes" (list_set cq_classes) 0.25) st in
  let aem_classes := findall re re_aem_classes no_flags html_content in
  let st := when (nonempty aem_classes)
                 (found "html_classes" (list_set aem_classes) 0.25) st in
  (* data attributes *)
  let data_attrs := findall re re_data_attrs no_flags html_content in
  let st := when (nonempty data_attrs)
                 (found "data_attributes" (list_set data_attrs) 0.3) st in
  let data_path := search re re_data_path no_flags html_content in
  let st := when (is_some data_path)
                 (found "data_attributes" ["data-path"] 0.15) st in
  (* HTML comments *)
  let aem_comments :=
    findall re re_aem_comments (mkFlags true true) html_content in
  let st := when (nonempty aem_comments)
                 (found "html_comments"
                    [("Found " ++ str_of_nat (List.length aem_comments)
                               ++ " AEM-related comments")%string] 0.2) st in
  (* HTTP headers *)
  let st := fold_left header_step headers st in
  (* clientlibs paths *)
  let clientlib_js :=
    findall re (re_clientlib "/etc.clientlibs/" ".js") no_flags html_content in
  let st := when (nonempty clientlib_js)
                 (found "javascript_paths" (list_set (firstn 3 clientlib_js)) 0.35) st in
  let old_clientlib_js :=
    findall re (re_clientlib "/etc/clientlibs/" ".js") no_flags html_content in
  let st := when (nonempty old_clientlib_js)
                 (found "javascript_paths" (list_set (firstn 3 old_clientlib_js)) 0.35) st in
  let clientlib_css :=
    findall re (re_clientlib "/etc.clientlibs/" ".css") no_flags html_content in
  let st := when (nonempty clientlib_css)
                 (found "css_paths" (list_set (firstn 3 clientlib_css)) 0.3) st in
  let old_clientlib_css :=
    findall re (re_clientlib "/etc/clientlibs/" ".css") no_flags html_content in
  let st := when (nonempty old_clientlib_css)
                 (found "css_paths" (list_set (firstn 3 old_clientlib_css)) 0.3) st in
  (* AEM JavaScript libraries *)
  let st := when (is_some (search re re_granite no_flags html_content))
                 (found "javascript_paths"
                    ["AEM UI frameworks (granite.js/coral.js)"] 0.25) st in
  (* /libs/ and /apps/ paths *)
  let libs_paths := findall re (re_path "/libs/") no_flags html_content in
  let st := when (nonempty libs_paths)
                 (found "javascript_paths" (list_set (firstn 2 libs_paths)) 0.2) st in
  let apps_paths := findall re (re_path "/apps/") no_flags html_content in
  let st := when (nonempty apps_paths)
                 (found "javascript_paths" (list_set (firstn 2 apps_paths)) 0.2) st in
  (* URL patterns *)
  let st := when (str_in "/content/" url)
                 (found "url_patterns" ["/content/ in URL"] 0.15) st in
  let st := when (is_some (search re re_html_ext no_flags url))
                 (found "url_patterns" [".html extension"] 0.05) st in
  let st := when (is_some (search re re_selector no_flags url))
                 (found "url_patterns" ["Selector pattern in URL"] 0.1) st in
  (* meta tags *)
  let meta_generator :=
    search re re_meta_generator (mkFlags true false) html_content in
  let st :=
    when (match meta_generator with
          | Some m => str_in "aem" (lower (group_1 m))
                      || str_in "day cq" (lower (group_1 m))
          | None => false
          end)
         (found "meta_tags"
            [("Generator: "
              ++ match meta_generator with Some m => group_1 m | None => "" end)%string]
            0.3) st in
  (* wcmmode *)
  let st := when (is_some (search re re_wcmmode no_flags html_content))
                 (found "html_classes" ["wcmmode present"] 0.15) st in
  st.

Definition detect_aem (re : Engine) (response : Http.Response) : bool * Q * Evidence :=
  let st := scan re response in
  (* cap confidence at 1.0 *)
  let confidence := py_min (confidence st) 1.0 in
  (* threshold of 0.3 *)
  let is_aem := Qle_bool 0.3 confidence in
  (* remove empty categories *)
  let evidence := filter (fun kv => nonempty (snd kv)) (evidence st) in
  (is_aem, confidence, evidence).

End Scorer.

(* ===================================================================== *)
(** * Probe unit *)
(* ===================================================================== *)

Module Probe.

(** The [status_code] entry: the integer of the response, or a string. *)
Inductive status : Type :=
| StatusInt (n : Z)
| StatusStr (s : string).

(** The dictionary [check_akamai_cache] returns, one field per key. *)
Record ProbeResult : Type := mkProbeResult {
  url : string;
  status_code : status;
  cache_hit : string;
  x_cache : string;
  x_cache_remote : string;
  x_check_cacheable : string;
  x_cache_key : string;
  x_true_cache_key : string;
  x_served_by : string;
  x_timer : string;
  age : string;
  cache_control : string;
  response_time_ms : option Z;
  is_aem : option bool;
  aem_confidence : option Q;
  aem_evidence : option Scorer.Evidence;
  error : option string
}.

(** [response.headers.get(name, default)]; header names compare without
    regard to case. *)
Definition headers_get (h : list (string * string)) (name default : string) : string :=
  match find (fun kv => String.eqb (lower (fst kv)) (lower name)) h with
  | Some kv => snd kv
  | None => default
  end.

(** [try: body except Exception as e: handler(e)]. *)
Definition try_except {A} (body : result A) (handler : exn -> result A) : result A :=
  match body with
  | Ok a => Ok a
  | Raise e => handler e
  end.

(** The record of the [except] branch. *)
Definition error_result (url : string) (e : exn) : ProbeResult :=
  mkProbeResult url (StatusStr "ERROR") "ERROR" "ERROR" "ERROR" "ERROR" "ERROR"
                "ERROR" "ERROR" "ERROR" "ERROR" "ERROR"
                None None None None (Some (str_of_exn e)).

(** [check_akamai_cache(url, test_for_aem)].  [get] stands for
    [requests.get] with the fixed headers, time-out and redirect policy;
    [re] is the regular-expression engine. *)
Definition check_akamai_cache (get : string -> result Http.Response) (re : Engine)
           (url : string) (test_for_aem : bool) : result ProbeResult :=
  try_except
    (response <- get url ;;
     let x_cache := headers_get (Http.headers response) "X-Cache" "NOT_FOUND" in
     let x_cache_remote := headers_get (Http.headers response) "X-Cache-Remote" "NOT_FOUND" in
     let x_check_cacheable := headers_get (Http.headers response) "X-Check-Cacheable" "UNKNOWN" in
     let x_cache_key := headers_get (Http.headers response) "X-Cache-Key" "NOT_FOUND" in
     let x_true_cache_key := headers_get (Http.headers response) "X-True-Cache-Key" "NOT_FOUND" in
     let x_served_by := headers_get (Http.headers response) "X-Served-By" "NOT_FOUND" in
     let x_timer := headers_get (Http.headers response) "X-Timer" "NOT_FOUND" in
     let age := headers_get (Http.headers response) "Age" "0" in
     let cache_control := headers_get (Http.headers response) "Cache-Control" "NOT_FOUND" in
     v <- Classifier.determine_cache_hit (Classifier.mkSignals x_cache x_check_cacheable age x_timer) ;;
     let '(cache_hit, response_time_ms) := v in
     let aem :=
       if test_for_aem then Some (Scorer.detect_aem re response) else None in
     Ok (mkProbeResult url (StatusInt (Http.status_code response)) cache_hit
           x_cache x_cache_remote x_check_cacheable x_cache_key x_true_cache_key
           x_served_by x_timer age cache_control response_time_ms
           (option_map (fun t => fst (fst t)) aem)
           (option_map (fun t => snd (fst t)) aem)
           (option_map snd aem)
           None))
    (fun e => Ok (error_result url e)).

End Probe.

(* ===================================================================== *)
(** * The [/test] route: batching and summary *)
(* ===================================================================== *)

Module Run.

Import Probe.

(** Module-level settings. *)
Definition URL_BATCH_SIZE : Z := 3.
Definition BATCH_DELAY : Q := 1.0.

(** What the route does to the outside world, in order. *)
Inductive event : Type :=
| EvParseSitemap (sitemap_url : string)   (* the sitemap is fetched *)
| EvBatch (batch : list string)           (* a batch is submitted to the pool *)
| EvSleep (seconds : Q).                  (* [time.sleep] *)

(** The collaborators of the route: the sitemap resolver, the HTTP
    transport, the regular-expression engine, the order in which the
    futures of a batch complete, and the clock. *)
Record Env : Type := mkEnv {
  parse_sitemap : string -> result (list string);
  get : string -> result Http.Response;
  re : Engine;
  as_completed : list string -> list string;
  now : string
}.

(** Computations that may raise and that leave a trace of events; the
    events that happened before an exception are kept. *)
Definition io (A : Type) : Type := (result A * list event)%type.

Definition ret {A} (a : A) : io A := (Ok a, []).

Definition iobind {A B} (m : io A) (f : A -> io B) : io B :=
  match m with
  | (Ok a, tr) => let '(r, tr') := f a in (r, tr ++ tr')
  | (Raise e, tr) => (Raise e, tr)
  end.

Definition emit (e : event) : io unit := (Ok tt, [e]).

Definition lift {A} (r : result A) : io A := (r, []).

Declare Scope io_scope.
Delimit Scope io_scope with io.
Notation "x <~ m ;; k" := (iobind m (fun x => k))
  (at level 61, m at next level, right associativity) : io_scope.
Notation "m ;;; k" := (iobind m (fun _ => k))
  (at level 61, right associativity) : io_scope.
Local Open Scope io_scope.

(** [for x in l: acc = body(acc, x)]. *)
Fixpoint for_each {A S} (l : list A) (body : S -> A -> io S) (acc : S) : io S :=
  match l with
  | [] => ret acc
  | x :: rest => acc' <~ body acc x ;; for_each rest body acc'
  end.

(** A value decoded from JSON, as [request.get_json()] hands it to the
    route: [JNull] is [None], and [JDict] lists the items of a dictionary,
    whose keys are distinct. *)
#[local] Set Warnings "-register-all".
Inductive json : Type :=
| JNull
| JBool (b : bool)
| JInt (n : Z)
| JFloat (q : Q)
| JStr (s : string)
| JList (l : list json)
| JDict (d : list (string * json)).
#[local] Set Warnings "register-all".

(** [type(v).__name__]. *)
Definition type_name (v : json) : string :=
  match v with
  | JNull => "NoneType"
  | JBool _ => "bool"
  | JInt _ => "int"
  | JFloat _ => "float"
  | JStr _ => "str"
  | JList _ => "list"
  | JDict _ => "dict"
  end.

(** What the lookup of an attribute the object does not have raises. *)
Definition no_attribute {A} (v : json) (attr : string) : result A :=
  Raise (AttributeError
           ("'" ++ type_name v ++ "' object has no attribute '" ++ attr ++ "'")).

(** [data.get(key, default)]: only a dictionary has the method. *)
Definition json_get (data : json) (key : string) (default : json) : result json :=
  match data with
  | JDict d =>
      Ok (match find (fun kv => String.eqb (fst kv) key) d with
          | Some kv => snd kv
          | None => default
          end)
  | _ => no_attribute data "get"
  end.

(** [v.strip()]: only a string has the method. *)
Definition json_strip (v : json) : result string :=
  match v with
  | JStr s => Ok (strip s)
  | _ => no_attribute v "strip"
  end.

(** Python truth value. *)
Definition json_truthy (v : json) : bool :=
  match v with
  | JNull => false
  | JBool b => b
  | JInt n => negb (n =? 0)%Z
  | JFloat q => negb (Qeq_bool q 0%Q)
  | JStr s => truthy s
  | JList l => Scorer.nonempty l
  | JDict d => Scorer.nonempty d
  end.

(** A Python number: [int] or [float]. *)
Inductive number : Type :=
| Int (n : Z)
| Float (q : Q).

Record Summary : Type := mkSummary {
  total_urls : Z;
  cache_hits : Z;
  cache_misses : Z;
  confirmed_hits : Z;
  inferred_hits : Z;
  confirmed_misses : Z;
  inferred_misses : Z;
  not_cacheable : Z;
  total_aem_detected : Z;
  errors : Z;
  unknown : Z;
  cache_hit_ratio : number
}.

(** The reply of the route: [jsonify(...)] with its status code. *)
Inductive Reply : Type :=
| ErrorReply (error : string) (code : Z)
| Success (summary : Summary) (results : list ProbeResult) (timestamp : string).

(** [a / b] on integers. *)
Definition truediv (a b : Z) : result Q :=
  if (b =? 0)%Z then Raise (ZeroDivisionError "division by zero")
  else Ok (inject_Z a / inject_Z b)%Q.

(** Nearest integer, ties to the even one. *)
Definition round_half_even (q : Q) : Z :=
  let f := Qfloor q in
  match (q - inject_Z f ?= 1 # 2)%Q with
  | Lt => f
  | Gt => (f + 1)%Z
  | Eq => if Z.even f then f else (f + 1)%Z
  end.

(** [round(x, 2)]: an [int] stays an [int]. *)
Definition round2 (x : number) : number :=
  match x with
  | Int n => Int n
  | Float q => Float (inject_Z (round_half_even (q * 100)) / 100)%Q
  end.

Definition in_list (s : string) (l : list string) : bool :=
  existsb (String.eqb s) l.

(** The statistics block of [test_sitemap]. *)
Definition summarize (results : list ProbeResult) : result Summary :=
  let total := Z.of_nat (List.length results) in
  let hits := count (fun r => str_in "HIT" (cache_hit r)) results in
  let misses := count (fun r => str_in "MISS" (cache_hit r)) results in
  let inferred_hits :=
    count (fun r => String.eqb (cache_hit r) "HIT (inferred from timing)") results in
  let inferred_misses :=
    count (fun r => String.eqb (cache_hit r) "MISS (inferred from timing)") results in
  let confirmed_hits :=
    count (fun r => in_list (cache_hit r) ["HIT"; "REFRESH_HIT"]) results in
  let confirmed_misses :=
    count (fun r => in_list (cache_hit r) ["MISS"; "REFRESH_MISS"]) results in
  let not_cacheable :=
    count (fun r => String.eqb (cache_hit r) "NOT_CACHEABLE") results in
  let errors := count (fun r => String.eqb (cache_hit r) "ERROR") results in
  let unknown := count (fun r => str_in "UNKNOWN" (cache_hit r)) results in
  let cacheable_total := (total - not_cacheable - errors)%Z in
  cache_hit_ratio <-
    (if (cacheable_total >? 0)%Z
     then (q <- truediv hits cacheable_total ;; Ok (Float (q * 100)%Q))
     else Ok (Int 0)) ;;
  let total_aem_detected :=
    count (fun r => match is_aem r with Some b => b | None => false end) results in
  Ok (mkSummary total hits misses confirmed_hits inferred_hits confirmed_misses
                inferred_misses not_cacheable total_aem_detected errors unknown
                (round2 cache_hit_ratio)).

(** One turn of the batch loop, for the start index [i]. *)
Definition batch_step (env : Env) (size : Z) (delay : Q) (check_aem : bool)
           (urls : list string) (results : list ProbeResult) (i : Z)
  : io (list ProbeResult) :=
  let batch := slice urls i (i + size) in
  emit (EvBatch batch) ;;;
  results <~ for_each (as_completed env batch)
               (fun results url =>
                  result <~ lift (check_akamai_cache (get env) (re env) url check_aem) ;;
                  ret (results ++ [result]))
               results ;;
  (if (i + size <? Z.of_nat (List.length urls))%Z
   then emit (EvSleep delay) else ret tt) ;;;
  ret results.

(** [for i in range(0, len(urls), size): ...]. *)
Definition process_batches (env : Env) (size : Z) (delay : Q) (check_aem : bool)
           (urls : list string) : io (list ProbeResult) :=
  starts <~ lift (range 0 (Z.of_nat (List.length urls)) size) ;;
  for_each starts (batch_step env size delay check_aem urls) [].

(** The outer [try ... except Exception as e] of the route. *)
Definition catch_500 (body : io Reply) : io Reply :=
  match body with
  | (Ok r, tr) => (Ok r, tr)
  | (Raise e, tr) => (Ok (ErrorReply (str_of_exn e) 500), tr)
  end.

(** [test_sitemap()], with [data], the value of [request.get_json()], as
    argument; a body the framework cannot decode does not get that far.
    The two reads of [data] stand before the [try]: what they raise is not
    caught by the route.  [check_aem] is passed on as it is, and the probe
    only tests its truth value. *)
Definition test_sitemap (env : Env) (data : json) : io Reply :=
  sitemap_url <~ lift (v <- json_get data "sitemap_url" (JStr "") ;; json_strip v) ;;
  check_aem <~ lift (json_get data "check_aem" (JBool true)) ;;
  if negb (truthy sitemap_url) then
    ret (ErrorReply "Please provide a sitemap URL" 400)
  else
    catch_500
      (emit (EvParseSitemap sitemap_url) ;;;
       urls <~ lift (parse_sitemap env sitemap_url) ;;
       if negb (Scorer.nonempty urls) then
         ret (ErrorReply "No URLs found in sitemap" 400)
       else
         let max_urls := 100%Z in
         let urls :=
           if (Z.of_nat (List.length urls) >? max_urls)%Z
           then slice urls 0 max_urls else urls in
         results <~ process_batches env URL_BATCH_SIZE BATCH_DELAY
                      (json_truthy check_aem) urls ;;
         summary <~ lift (summarize results) ;;
         ret (Success summary results (now env))).

End Run.

(* ===================================================================== *)
(** * Sitemap resolver *)
(* ===================================================================== *)

Module Sitemap.

(** What [parse_sitemap] reads from a fetched and parsed document: the
    [.text] of the elements matched by [.//sm:sitemap/sm:loc] and by
    [.//sm:url/sm:loc], in document order ([None] for an element with no
    text). *)
Record Document : Type := mkDocument {
  sitemap_locs : list (option string);
  url_locs : list (option string)
}.

(** [[url.text for url in url_elements if url.text]]. *)
Definition texts (elements : list (option string)) : list string :=
  flat_map (fun text =>
              match text with
              | Some t => if truthy t then [t] else []
              | None => []
              end) elements.

(** [except Exception as e: raise Exception(f"Error parsing sitemap: {str(e)}")]. *)
Definition reraise {A} (body : result A) : result A :=
  match body with
  | Ok a => Ok a
  | Raise e => Raise (OtherException ("Error parsing sitemap: " ++ str_of_exn e))
  end.

(** [for x in l: acc = body(acc, x)], stopping at the first exception. *)
Fixpoint for_each {A S} (l : list A) (body : S -> A -> result S) (acc : S) : result S :=
  match l with
  | [] => Ok acc
  | x :: rest => acc' <- body acc x ;; for_each rest body acc'
  end.

(** [parse_sitemap(sitemap_url)].  [load] stands for the fetch
    ([requests.get], [raise_for_status]) and the parse ([etree.fromstring]
    and the two XPath queries) of one document.  The argument is optional
    because the recursive call passes the text of an element, which may be
    [None].  [depth] is the number of nested calls the interpreter still
    allows: at zero the body raises the recursion error. *)
Fixpoint parse_sitemap (load : option string -> result Document) (depth : nat)
         (sitemap_url : option string) : result (list string) :=
  reraise
    match depth with
    | O => Raise (OtherException "maximum recursion depth exceeded")
    | S d =>
        root <- load sitemap_url ;;
        let sitemap_elements := sitemap_locs root in
        if Scorer.nonempty sitemap_elements then
          for_each sitemap_elements
            (fun urls sitemap_loc =>
               more <- parse_sitemap load d sitemap_loc ;;
               Ok (urls ++ more))
            []
        else
          Ok (texts (url_locs root))
    end.

End Sitemap.

(* ===================================================================== *)
(** * Vocabulary of the specification *)
(* ===================================================================== *)

Module Spec.

Import Scorer.

(** The categories present in an evidence map. *)
Definition keys (ev : Evidence) : list string := map fst ev.

Definition Qsum (l : list Q) : Q := fold_right Qplus 0%Q l.

(** The confidence and the evidence of a scorer outcome. *)
Definition confidence_of (o : bool * Q * Evidence) : Q := snd (fst o).
Definition evidence_of (o : bool * Q * Evidence) : Evidence := snd o.


(** What one header adds to the confidence. *)
Definition header_increment (hv : string * string) : Q :=
  if existsb (fun x => str_in x (fst hv)) ["x-aem"; "x-cq"] then 0.3%Q
  else if str_in "day cq" (lower (snd hv)) then 0.25%Q
  else 0%Q.

(** The same response with no headers, and with another body. *)
Definition without_headers (r : Http.Response) : Http.Response :=
  Http.mkResponse (Http.status_code r) [] (Http.text r) (Http.url r).

Definition with_text (r : Http.Response) (t : string) : Http.Response :=
  Http.mkResponse (Http.status_code r) (Http.headers r) t (Http.url r).


(** The two shapes of a probe result. *)
Definition successful_classification (r : Probe.ProbeResult) : Prop :=
  Probe.error r = None
  /\ In (Probe.cache_hit r) Classifier.verdicts
  /\ exists n, Probe.status_code r = Probe.StatusInt n.

Definition error_message (r : Probe.ProbeResult) : Prop :=
  (exists msg, Probe.error r = Some msg)
  /\ Probe.cache_hit r = "ERROR"
  /\ Probe.status_code r = Probe.StatusStr "ERROR".

(** The result of a probe, as a function. *)
Definition probe (get : string -> result Http.Response) (re : Engine)
           (url : string) (test_for_aem : bool) : Probe.ProbeResult :=
  match Probe.check_akamai_cache get re url test_for_aem with
  | Ok r => r
  | Raise e => Probe.error_result url e
  end.

(** The groups and the pauses of a trace. *)
Definition batches_of (tr : list Run.event) : list (list string) :=
  flat_map (fun e => match e with Run.EvBatch b => [b] | _ => [] end) tr.

Definition sleeps_of (tr : list Run.event) : nat :=
  List.length (filter (fun e => match e with Run.EvSleep _ => true | _ => false end) tr).

(** The events of the turn of the batch loop that starts at index [i]. *)
Definition turn_events (size : Z) (delay : Q) (urls : list string) (i : Z)
  : list Run.event :=
  Run.EvBatch (slice urls i (i + size))
  :: (if (i + size <? Z.of_nat (List.length urls))%Z then [Run.EvSleep delay] else []).

(** The [k]-th group of [size] consecutive elements. *)
Definition chunk {A} (size : nat) (l : list A) (k : nat) : list A :=
  firstn size (skipn (k * size) l).

(** A successful record with a given verdict, and the result set of the
    hit-ratio test: three HIT, three inferred HIT, two MISS, one
    NOT_CACHEABLE and one ERROR. *)
Definition with_verdict (verdict : string) : Probe.ProbeResult :=
  Probe.mkProbeResult "https://example.com/page" (Probe.StatusInt 200) verdict
    "NOT_FOUND" "NOT_FOUND" "UNKNOWN" "NOT_FOUND" "NOT_FOUND" "NOT_FOUND"
    "NOT_FOUND" "0" "NOT_FOUND" None None None None None.

Definition mixed_results : list Probe.ProbeResult :=
  repeat (with_verdict "HIT") 3
  ++ repeat (with_verdict "HIT (inferred from timing)") 3
  ++ repeat (with_verdict "MISS") 2
  ++ [with_verdict "NOT_CACHEABLE";
      Probe.error_result "https://example.com/page9" (OtherException "Connection timeout")].

(** The request bodies the clients of the route send: a JSON object in
    which each of the five keys is either left out or given with a value of
    its documented type.  The route reads [sitemap_url] and [check_aem];
    the other three keys are the ones the clients of the configurable
    interface send. *)
Record Request : Type := mkRequest {
  sitemap_url : option string;
  check_aem : option bool;
  batch_size : option Z;
  batch_delay : option Q;
  max_urls : option Z
}.

Definition entry {A} (key : string) (f : A -> Run.json) (o : option A)
  : list (string * Run.json) :=
  match o with Some a => [(key, f a)] | None => [] end.

(** The decoded body of such a request.  A [Request] is read as its body
    wherever a body is expected. *)
Definition body (r : Request) : Run.json :=
  Run.JDict (entry "sitemap_url" Run.JStr (sitemap_url r)
             ++ entry "check_aem" Run.JBool (check_aem r)
             ++ entry "batch_size" Run.JInt (batch_size r)
             ++ entry "batch_delay" Run.JFloat (batch_delay r)
             ++ entry "max_urls" Run.JInt (max_urls r)).

Coercion body : Request >-> Run.json.

(** The request of the invalid-batch-size test, and a stand-in for the
    collaborators: a sitemap of one page, served from cache. *)
Definition invalid_batch_size_request : Request :=
  mkRequest (Some "https://example.com/sitemap.xml") None (Some 0%Z) None None.

Definition one_page_env : Run.Env :=
  Run.mkEnv (fun _ => Ok ["https://example.com/page1"])
            (fun u => Ok (Http.mkResponse 200 [("X-Cache", "TCP_HIT")] "" u))
            py_re (fun l => l) "2025-01-01T00:00:00".

(** [sep] between every two neighbours. *)
Fixpoint intersperse {A} (sep : A) (l : list A) : list A :=
  match l with
  | [] => []
  | x :: rest =>
      match rest with
      | [] => [x]
      | _ :: _ => x :: sep :: intersperse sep rest
      end
  end.

(** [r] is [x] rounded to two decimals: a whole number of hundredths at
    most half a hundredth away. *)
Definition rounded_to_2_decimals (x r : Q) : Prop :=
  (exists k : Z, r == inject_Z k / 100)%Q /\ (Qabs (r - x) <= 1 # 200)%Q.

(** The six verdicts of rules 1 to 6 and 8, and the three of rule 7. *)
Definition header_verdicts : list string :=
  [ "HIT"; "MISS"; "REFRESH_HIT"; "REFRESH_MISS"; "NOT_CACHEABLE"; "UNKNOWN" ].

(** The evidence categories, in the order [detect_aem] creates them. *)
Definition categories : list string :=
  [ "html_classes"; "data_attributes"; "html_comments"; "headers";
    "javascript_paths"; "css_paths"; "url_patterns"; "meta_tags" ].

(** [l] lists some of the elements of [full], in the order of [full]. *)
Fixpoint subsequence (l full : list string) : Prop :=
  match l, full with
  | [], _ => True
  | _ :: _, [] => False
  | x :: l', y :: full' =>
      (x = y /\ subsequence l' full') \/ subsequence l full'
  end.

(** The list stored under a category of the returned evidence ([[]] when
    the category is absent). *)
Definition snippets (cat : string) (ev : Evidence) : list string :=
  match find (fun kv => String.eqb (fst kv) cat) ev with
  | Some kv => snd kv
  | None => []
  end.

(** Whether a header is one of the platform's own: its lower-cased name
    contains x-aem or x-cq. *)
Definition platform_header (name : string) : bool :=
  str_in "x-aem" (lower name) || str_in "x-cq" (lower name).

(** The header dictionary has no entry for [name], whatever the case. *)
Definition header_absent (name : string) (h : list (string * string)) : Prop :=
  forall k v, In (k, v) h -> lower k <> lower name.

(** Every character of the string is white space. *)
Fixpoint blank (s : string) : bool :=
  match s with
  | EmptyString => true
  | String c s' => isspace c && blank s'
  end.

(** The verdict of a result is one the probe can produce. *)
Definition probe_verdict (r : Probe.ProbeResult) : Prop :=
  In (Probe.cache_hit r) Classifier.verdicts \/ Probe.cache_hit r = "ERROR".

(** The collaborators of the route with the sitemap resolver of the
    application in place. *)
Definition with_resolver (load : option string -> result Sitemap.Document)
           (depth : nat) (env : Run.Env) : Run.Env :=
  Run.mkEnv (fun u => Sitemap.parse_sitemap load depth (Some u))
            (Run.get env) (Run.re env) (Run.as_completed env) (Run.now env).

(** The two accumulators of the scorer go together: the confidence is
    positive exactly when some category has a snippet. *)
Definition tied (st : State) : Prop :=
  (0 <= confidence st)%Q
  /\ map fst (evidence st) = categories
  /\ ((0 < confidence st)%Q
      <-> existsb (fun kv => nonempty (snd kv)) (evidence st) = true).

(** A small web of sitemaps: an index of two flat sitemaps, an index with
    a missing child, an index that lists itself, and an index that lists
    itself between two flat sitemaps. *)
Definition sample_load (u : option string) : result Sitemap.Document :=
  match u with
  | None => Raise (OtherException "Invalid URL None")
  | Some u =>
      if String.eqb u "https://example.com/index.xml" then
        Ok (Sitemap.mkDocument [Some "https://example.com/a.xml";
                                Some "https://example.com/b.xml"]
                               [Some "https://example.com/ignored"])
      else if String.eqb u "https://example.com/a.xml" then
        Ok (Sitemap.mkDocument [] [Some "https://example.com/1"; None; Some "";
                                   Some "https://example.com/2"])
      else if String.eqb u "https://example.com/b.xml" then
        Ok (Sitemap.mkDocument [] [Some "https://example.com/3"])
      else if String.eqb u "https://example.com/broken.xml" then
        Ok (Sitemap.mkDocument [Some "https://example.com/a.xml";
                                Some "https://example.com/missing.xml";
                                Some "https://example.com/b.xml"] [])
      else if String.eqb u "https://example.com/loop.xml" then
        Ok (Sitemap.mkDocument [Some "https://example.com/loop.xml"] [])
      else if String.eqb u "https://example.com/cycle.xml" then
        Ok (Sitemap.mkDocument [Some "https://example.com/a.xml";
                                Some "https://example.com/cycle.xml";
                                Some "https://example.com/b.xml"] [])
      else Raise (OtherException "404 Client Error: Not Found")
  end.

(** The URLs the route keeps: at most the first hundred. *)
Definition kept (urls : list string) : list string := firstn 100 urls.

(** ** The ladder of the specification *)

(** Rules 1 to 6 in the words of the specification.  Rule 6 reads: age
    header present and not equal to 0.  The extractor hands an absent
    header on as the string 0, so on the extracted signals the rule is that
    the age value is not 0. *)
Definition specified_ladder : list ((Classifier.Signals -> bool) * string) :=
  [ (fun s => str_in "TCP_HIT" (Classifier.x_cache s)
              || str_in "TCP_MEM_HIT" (Classifier.x_cache s), "HIT");
    (fun s => str_in "TCP_MISS" (Classifier.x_cache s), "MISS");
    (fun s => str_in "TCP_REFRESH_HIT" (Classifier.x_cache s), "REFRESH_HIT");
    (fun s => str_in "TCP_REFRESH_MISS" (Classifier.x_cache s), "REFRESH_MISS");
    (fun s => String.eqb (Classifier.x_check_cacheable s) "NO", "NOT_CACHEABLE");
    (fun s => negb (String.eqb (Classifier.age s) "0"), "HIT") ].

(** The classifier follows a ladder: for every signal set it returns the
    verdict of the first rule that matches, with no response time; when no
    rule matches the timing rule decides, and when that gives nothing the
    verdict is UNKNOWN. *)
Definition first_rule_wins (rules : list ((Classifier.Signals -> bool) * string)) : Prop :=
  forall s : Classifier.Signals,
    Classifier.determine_cache_hit s
    = Ok match Classifier.first_match rules s with
         | Some v => (v, None)
         | None => match Classifier.rule7 s with
                   | Some v => v
                   | None => ("UNKNOWN", None)
                   end
         end.

(** ** Integers in a timing header *)




(** ** The checks of the scorer *)




End Spec.

(* ===================================================================== *)
(** * Properties of the classifier *)
(* ===================================================================== *)

Section ClassifierFacts.

Import Classifier.

(** [split] always yields at least one piece. *)
Lemma split_aux_nonempty sep skip cur s : split_aux sep skip cur s <> [].
Proof.
  revert skip cur; induction s as [|c s IH]; intros skip cur; cbn [split_aux].
  - discriminate.
  - destruct skip as [|k].
    + destruct (String.prefix sep (String c s)); [discriminate|apply IH].
    + apply IH.
Qed.

(** When a non-empty separator occurs, there are at least two pieces. *)
Lemma split_aux_two sep cur s :
  String.prefix sep "" = false -> str_in sep s = true ->
  (2 <= List.length (split_aux sep 0 cur s))%nat.
Proof.
  intros Hsep; revert cur; induction s as [|c s IH]; intros cur Hin.
  - cbn [str_in] in Hin. rewrite Hsep in Hin. discriminate.
  - cbn [str_in] in Hin. cbn [split_aux].
    destruct (String.prefix sep (String c s)) eqn:Hp.
    + cbn [List.length].
      pose proof (split_aux_nonempty sep (String.length sep - 1) "" s) as Hne.
      destruct (split_aux sep (String.length sep - 1) "" s); [congruence|].
      cbn [List.length]. lia.
    + apply IH, Hin.
Qed.

(** The [VE] segment can always be taken when [VE] occurs: the indexing
    of method 3 never fails. *)
Lemma ve_part_ok x : str_in "VE" x = true -> exists p, ve_part x = Ok p.
Proof.
  intros Hin. unfold ve_part, split.
  pose proof (split_aux_two "VE" "" x eq_refl Hin) as H2.
  destruct (split_aux "VE" 0 "" x) as [|a [|seg rest]]; cbn [List.length] in H2; try lia.
  cbn [index nth_error bind].
  pose proof (split_aux_nonempty "," 0 "" seg) as Hne.
  destruct (split_aux "," 0 "" seg) as [|p ps]; [congruence|].
  exists p. reflexivity.
Qed.

Lemma int_raises_ValueError s e : int s = Raise e -> exists m, e = ValueError m.
Proof.
  unfold int.
  destruct (list_ascii_of_string _) as [|c l].
  - cbn. intros H; inversion H; eauto.
  - destruct (Ascii.eqb c "+"); [|destruct (Ascii.eqb c "-")];
      (destruct (digits _ _ _);
       [destruct (_ <? _)%nat|]; intros H; inversion H; eauto).
Qed.

Lemma ve_part_raises_IndexError x e :
  ve_part x = Raise e -> exists m, e = IndexError m.
Proof.
  unfold ve_part, index, bind.
  destruct (nth_error (split "VE" x) 1); [destruct (nth_error _ 0)|];
    intros H; inversion H; eauto.
Qed.

(** The timing branch in terms of the parsed integer. *)
Lemma timing_elapsed x :
  timing x = match elapsed_ms x with
             | Ok t => Ok (timing_verdict t)
             | Raise _ => Ok ("UNKNOWN", None)
             end.
Proof.
  unfold timing, timing_try, elapsed_ms, timing_verdict, bind.
  destruct (ve_part x) as [p|e] eqn:Hp.
  - destruct (int p) as [t|e] eqn:Ht.
    + destruct (t <? 100)%Z; [reflexivity|]. destruct (t >? 500)%Z; reflexivity.
    + destruct (int_raises_ValueError _ _ Ht) as [m ->]. reflexivity.
  - destruct (ve_part_raises_IndexError _ _ Hp) as [m ->]. reflexivity.
Qed.

(** The [if]/[elif] chain computes the ladder, and never raises. *)
Lemma determine_cache_hit_ladder s :
  determine_cache_hit s = Ok (ladder_verdict s).
Proof.
  unfold determine_cache_hit, ladder_verdict, ladder, first_match, rule7,
    timing_rule_applies.
  destruct (str_in "TCP_HIT" (x_cache s) || str_in "TCP_MEM_HIT" (x_cache s));
    [reflexivity|].
  destruct (str_in "TCP_MISS" (x_cache s)); [reflexivity|].
  destruct (str_in "TCP_REFRESH_HIT" (x_cache s)); [reflexivity|].
  destruct (str_in "TCP_REFRESH_MISS" (x_cache s)); [reflexivity|].
  destruct (String.eqb (x_check_cacheable s) "NO"); [reflexivity|].
  destruct (truthy (age s) && negb (String.eqb (age s) "0")); [reflexivity|].
  destruct (negb (String.eqb (x_timer s) "NOT_FOUND") && str_in "VE" (x_timer s));
    [|reflexivity].
  rewrite timing_elapsed. destruct (elapsed_ms (x_timer s)); reflexivity.
Qed.

Lemma timing_verdict_in t : In (fst (timing_verdict t)) verdicts.
Proof.
  unfold timing_verdict, verdicts.
  destruct (t <? 100)%Z; [|destruct (t >? 500)%Z]; cbn; tauto.
Qed.

(** The classifier is exhaustive: one of the nine verdicts comes out. *)
Lemma ladder_verdict_in s : In (fst (ladder_verdict s)) verdicts.
Proof.
  unfold ladder_verdict, ladder, first_match, rule7.
  repeat match goal with
         | |- context [if ?b then Some _ else _] => destruct b; [cbn; tauto|]
         end.
  destruct (timing_rule_applies s); [|cbn; tauto].
  destruct (elapsed_ms (x_timer s)); [apply timing_verdict_in|cbn; tauto].
Qed.

(** The two ladders differ in rule 6 only, and only on an empty age
    value. *)
Lemma ladder_as_specified s :
  age s <> "" -> first_match ladder s = first_match Spec.specified_ladder s.
Proof.
  intros Hage. unfold ladder, Spec.specified_ladder, first_match.
  destruct (age s) as [|c a]; [congruence|]. reflexivity.
Qed.

(** When no rule of the specification matches, no condition of the chain
    holds either. *)
Lemma specified_ladder_none s :
  first_match Spec.specified_ladder s = None -> first_match ladder s = None.
Proof.
  unfold ladder, Spec.specified_ladder, first_match.
  destruct (str_in "TCP_HIT" (x_cache s) || str_in "TCP_MEM_HIT" (x_cache s));
    [discriminate|].
  destruct (str_in "TCP_MISS" (x_cache s)); [discriminate|].
  destruct (str_in "TCP_REFRESH_HIT" (x_cache s)); [discriminate|].
  destruct (str_in "TCP_REFRESH_MISS" (x_cache s)); [discriminate|].
  destruct (String.eqb (x_check_cacheable s) "NO"); [discriminate|].
  destruct (negb (String.eqb (age s) "0")); [discriminate|].
  rewrite andb_false_r. reflexivity.
Qed.

(** C1, as the code has it.  For every signal set the classifier returns
    the verdict of the first matching rule of the ladder whose rule 6 is:
    age value non-empty and not 0; no timing is recorded then.  When none
    of the six rules matches the timing rule decides, and when no rule
    matches at all the verdict is UNKNOWN.  For every signal set whose age
    value is not the empty string this is the ladder of the specification,
    rule for rule.  A cache indicator TCP_HIT with age 0 is a HIT by rule
    1, whatever the other signals are. *)
Theorem C1_decision_ladder :
  Spec.first_rule_wins ladder
  /\ (forall s : Signals,
        age s <> "" ->
        first_match ladder s = first_match Spec.specified_ladder s
        /\ determine_cache_hit s
           = Ok match first_match Spec.specified_ladder s with
                | Some v => (v, None)
                | None => match rule7 s with
                          | Some v => v
                          | None => ("UNKNOWN", None)
                          end
                end)
  /\ (forall s : Signals,
        age s = "" ->
        first_match ladder s = first_match (removelast ladder) s)
  /\ (forall cacheable timer : string,
        first_match ladder (mkSignals "TCP_HIT" cacheable "0" timer) = Some "HIT"
        /\ determine_cache_hit (mkSignals "TCP_HIT" cacheable "0" timer)
           = Ok ("HIT", None)).
Proof.
  split; [|split; [|split]].
  - intros s. apply determine_cache_hit_ladder.
  - intros s Hage. split; [apply ladder_as_specified, Hage|].
    rewrite <- (ladder_as_specified s Hage). apply determine_cache_hit_ladder.
  - intros s Hage. unfold ladder, removelast, first_match. rewrite Hage.
    reflexivity.
  - intros cacheable timer. split; reflexivity.
Qed.

Lemma C1_decision_ladder_witness :
  determine_cache_hit (mkSignals "NOT_FOUND" "UNKNOWN" "120" "S1,VS0,VS0,VE900")
  = Ok ("HIT", None).
Proof.
  refine (eq_trans
            (proj2 (proj1 (proj2 C1_decision_ladder)
                      (mkSignals "NOT_FOUND" "UNKNOWN" "120" "S1,VS0,VS0,VE900") _))
            eq_refl).
  discriminate.
Defined.

(** C1, as the specification words it, fails.  A response with an Age
    header of empty value has its age extracted as the empty string, which
    is present and is not 0: rule 6 of the specification gives HIT.  The
    chain tests the truth value of the string first, so it goes on to the
    timing rule: the verdict is UNKNOWN, or follows the timing header when
    there is one. *)
Lemma C1_counterexample :
  let s := mkSignals "NOT_FOUND" "UNKNOWN" "" "NOT_FOUND" in
  let s' := mkSignals "NOT_FOUND" "UNKNOWN" "" "S1,VS0,VS0,VE900" in
  first_match Spec.specified_ladder s = Some "HIT"
  /\ determine_cache_hit s = Ok ("UNKNOWN", None)
  /\ first_match Spec.specified_ladder s' = Some "HIT"
  /\ determine_cache_hit s' = Ok ("MISS (inferred from timing)", Some 900%Z)
  /\ (forall re url,
        Probe.check_akamai_cache
          (fun u => Ok (Http.mkResponse 200 [("Age", "")] "" u)) re url false
        = Ok (Probe.mkProbeResult url (Probe.StatusInt 200) "UNKNOWN"
                "NOT_FOUND" "NOT_FOUND" "UNKNOWN" "NOT_FOUND" "NOT_FOUND"
                "NOT_FOUND" "NOT_FOUND" "" "NOT_FOUND" None None None None None))
  /\ ~ Spec.first_rule_wins Spec.specified_ladder.
Proof.
  cbv zeta. repeat split; try reflexivity.
  intros H.
  specialize (H (mkSignals "NOT_FOUND" "UNKNOWN" "" "NOT_FOUND")).
  vm_compute in H. discriminate H.
Qed.

End ClassifierFacts.

(* ===================================================================== *)
(** * Properties of the scorer *)
(* ===================================================================== *)

Section ScorerFacts.

Import Scorer Spec.

Local Open Scope Q_scope.

Lemma confidence_when_found c k s q st :
  confidence (when c (found k s q) st) == confidence st + (if c then q else 0).
Proof. destruct c; cbn; ring. Qed.

Lemma confidence_header_step st hv :
  confidence (header_step st hv) == confidence st + header_increment hv.
Proof.
  destruct hv as [h v]. unfold header_step, header_increment. cbn [fst snd].
  destruct (existsb _ _); [cbn; ring|].
  destruct (str_in "day cq" (lower v)); cbn; ring.
Qed.

Lemma confidence_header_loop hs st :
  confidence (fold_left header_step hs st)
  == confidence st + Qsum (map header_increment hs).
Proof.
  revert st; induction hs as [|hv hs IH]; intros st; cbn [fold_left map Qsum fold_right].
  - ring.
  - rewrite IH, confidence_header_step. unfold Qsum. ring.
Qed.

Lemma header_increment_nonneg hv : 0 <= header_increment hv.
Proof.
  unfold header_increment.
  destruct (existsb _ _); [|destruct (str_in _ _)]; compute; discriminate.
Qed.

Lemma header_sum_nonneg hs : 0 <= Qsum (map header_increment hs).
Proof.
  induction hs as [|hv hs IH]; cbn [map Qsum fold_right].
  - apply Qle_refl.
  - pose proof (header_increment_nonneg hv) as H.
    change (fold_right Qplus 0 (map header_increment hs))
      with (Qsum (map header_increment hs)).
    rewrite <- (Qplus_0_r 0). apply Qplus_le_compat; assumption.
Qed.

Lemma nonneg_when_found c k s q st :
  0 <= q -> 0 <= confidence st -> 0 <= confidence (when c (found k s q) st).
Proof.
  intros Hq Hst. destruct c; cbn; [|exact Hst].
  rewrite <- (Qplus_0_r 0). apply Qplus_le_compat; assumption.
Qed.

Lemma nonneg_header_loop hs st :
  0 <= confidence st -> 0 <= confidence (fold_left header_step hs st).
Proof.
  intros Hst. rewrite confidence_header_loop.
  rewrite <- (Qplus_0_r 0). apply Qplus_le_compat; [exact Hst|apply header_sum_nonneg].
Qed.

(** The running confidence never goes below zero. *)
Lemma scan_nonneg re response : 0 <= confidence (scan re response).
Proof.
  unfold scan. cbv zeta.
  repeat (apply nonneg_when_found; [compute; discriminate|]).
  apply nonneg_header_loop.
  repeat (apply nonneg_when_found; [compute; discriminate|]).
  compute; discriminate.
Qed.

Lemma py_min_bounds a : 0 <= a -> 0 <= py_min a 1.0 /\ py_min a 1.0 <= 1.
Proof.
  intros Ha. unfold py_min. destruct (Qle_bool a 1.0) eqn:E.
  - split; [exact Ha|]. apply Qle_bool_iff in E.
    eapply Qle_trans; [exact E|]. compute; discriminate.
  - split; compute; discriminate.
Qed.

(** C9.  For every response (and whatever the pattern matcher finds) the
    returned confidence lies in the closed interval from 0 to 1. *)
Theorem C9_confidence_in_unit_interval (re : Engine) (response : Http.Response) :
  0 <= confidence_of (detect_aem re response)
  /\ confidence_of (detect_aem re response) <= 1.
Proof.
  unfold detect_aem, confidence_of. cbn [fst snd].
  apply py_min_bounds, scan_nonneg.
Qed.

(** C10.  The returned evidence map has no category with an empty list. *)
Theorem C10_no_empty_category (re : Engine) (response : Http.Response)
        (k : string) (v : list string) :
  In (k, v) (evidence_of (detect_aem re response)) -> v <> [].
Proof.
  unfold detect_aem, evidence_of. cbn [snd]. intros H.
  apply filter_In in H. destruct H as [_ H]. cbn [snd] in H.
  destruct v; [discriminate|discriminate].
Qed.

Lemma C10_no_empty_category_witness :
  let response := Http.mkResponse 200 [("X-AEM-Version", "6.5")] "" "https://example.com/" in
  In ("headers", ["x-aem-version: 6.5"%string]) (evidence_of (detect_aem py_re response))
  /\ ["x-aem-version: 6.5"%string] <> [].
Proof.
  cbv zeta. split.
  - vm_compute. left. reflexivity.
  - apply (C10_no_empty_category py_re
             (Http.mkResponse 200 [("X-AEM-Version", "6.5")] "" "https://example.com/")
             "headers").
    vm_compute. left. reflexivity.
Defined.

(** ** Increments and categories *)





(** The headers add one increment each, on top of what the body and the
    URL give. *)
Lemma scan_confidence_headers re response :
  confidence (scan re response)
  == confidence (scan re (without_headers response))
     + Qsum (map header_increment (lower_keys (Http.headers response))).
Proof.
  unfold scan, without_headers. cbv zeta.
  cbn [Http.text Http.url Http.headers Http.status_code].
  change (lower_keys []) with (@nil (string * string)). cbn [fold_left].
  repeat rewrite confidence_when_found.
  rewrite confidence_header_loop.
  repeat rewrite confidence_when_found.
  ring.
Qed.








(** ** Case of the evidence *)

Lemma lower_char_idem c : lower_char (lower_char c) = lower_char c.
Proof. destruct c as [[] [] [] [] [] [] [] []]; reflexivity. Qed.

Lemma lower_idem s : lower (lower s) = lower s.
Proof.
  induction s as [|c s IH]; cbn [lower]; [reflexivity|].
  rewrite lower_char_idem, IH. reflexivity.
Qed.

(** C6 fails on the code.  The scorer reads the body only through its
    case-folded copy, so the outcome for a body and for its lower-cased form
    is the same; on a body with the attribute DATA-CQ-Component the snippet
    reported is data-cq-component, which does not occur in the body. *)
Theorem C6_evidence_is_case_folded :
  (forall re response,
     detect_aem re (with_text response (lower (Http.text response)))
     = detect_aem re response)
  /\ (let response :=
        Http.mkResponse 200 [] "<div DATA-CQ-Component=hero>" "https://example.com/" in
      evidence_of (detect_aem py_re response)
      = [("data_attributes"%string, ["data-cq-component"%string])]
      /\ str_in "data-cq-component" (Http.text response) = false
      /\ str_in "DATA-CQ-Component" (Http.text response) = true).
Proof.
  split.
  - intros re response. unfold detect_aem, scan, with_text.
    cbn [Http.text Http.url Http.headers Http.status_code].
    rewrite lower_idem. reflexivity.
  - cbv zeta. repeat split; vm_compute; reflexivity.
Qed.

End ScorerFacts.

(* ===================================================================== *)
(** * Properties of the probe unit *)
(* ===================================================================== *)

Section ProbeFacts.

Import Probe Spec.

(** The probe always returns a record: the one of the [except] branch when
    the fetch raises, and one built from the response otherwise. *)
Lemma check_akamai_cache_cases get re url test_for_aem :
  match get url with
  | Raise e => check_akamai_cache get re url test_for_aem = Ok (error_result url e)
  | Ok response =>
      exists r, check_akamai_cache get re url test_for_aem = Ok r
                /\ Probe.url r = url
                /\ status_code r = StatusInt (Http.status_code response)
                /\ In (cache_hit r) Classifier.verdicts
                /\ error r = None
  end.
Proof.
  unfold check_akamai_cache, try_except.
  destruct (get url) as [response|e]; cbn [bind]; [|reflexivity].
  rewrite determine_cache_hit_ladder. cbn [bind].
  match goal with
  | |- context [Classifier.ladder_verdict ?s] =>
      pose proof (ladder_verdict_in s) as Hin;
      destruct (Classifier.ladder_verdict s) as [v t]
  end.
  eexists. split; [reflexivity|]. cbn. auto.
Qed.

Lemma check_akamai_cache_total get re url test_for_aem :
  check_akamai_cache get re url test_for_aem = Ok (probe get re url test_for_aem).
Proof.
  unfold probe.
  pose proof (check_akamai_cache_cases get re url test_for_aem) as H.
  destruct (get url).
  - destruct H as [r [-> _]]. reflexivity.
  - rewrite H. reflexivity.
Qed.

Lemma ERROR_not_a_verdict : ~ In "ERROR" Classifier.verdicts.
Proof. cbn. intros H. repeat (destruct H as [H|H]; [discriminate H|]). exact H. Qed.

(** C3.  The probe never raises, for every URL, transport and flag.  When
    the fetch fails the result is the error record: the status code, the
    verdict and the nine header echoes are the error sentinel, the error
    entry is the message of the exception, the URL is the probed one, and
    the optional entries (response time, platform detection) are absent.
    Every result is either a successful classification with no error, or
    an error message with the sentinel as verdict and status, and never
    both. *)
Theorem C3_probe_never_raises (get : string -> result Http.Response) (re : Engine)
        (url : string) (test_for_aem : bool) :
  exists r : ProbeResult,
    check_akamai_cache get re url test_for_aem = Ok r
    /\ (forall e, get url = Raise e ->
          r = mkProbeResult url (StatusStr "ERROR") "ERROR" "ERROR" "ERROR" "ERROR"
                "ERROR" "ERROR" "ERROR" "ERROR" "ERROR" "ERROR"
                None None None None (Some (str_of_exn e)))
    /\ (forall response, get url = Ok response -> successful_classification r)
    /\ (successful_classification r \/ error_message r)
    /\ ~ (successful_classification r /\ error_message r)
    /\ (successful_classification r ->
        cache_hit r <> "ERROR" /\ status_code r <> StatusStr "ERROR").
Proof.
  assert (Hsentinel : forall r, successful_classification r ->
            cache_hit r <> "ERROR" /\ status_code r <> StatusStr "ERROR").
  { intros r [_ [Hv [n Hn]]]. split.
    - intros E. rewrite E in Hv. exact (ERROR_not_a_verdict Hv).
    - rewrite Hn. discriminate. }
  pose proof (check_akamai_cache_cases get re url test_for_aem) as H.
  destruct (get url) as [response|e].
  - destruct H as [r [Hr [Hu [Hs [Hv He]]]]].
    assert (Hok : successful_classification r).
    { unfold successful_classification. eauto. }
    exists r. split; [exact Hr|]. split; [discriminate|]. split; [auto|].
    split; [left; exact Hok|].
    split; [|apply Hsentinel].
    intros [_ [[msg Hmsg] _]]. congruence.
  - exists (error_result url e). split; [exact H|].
    split; [intros e' He'; inversion He'; reflexivity|].
    split; [discriminate|].
    split.
    + right. unfold error_message, error_result. cbn. eauto.
    + split; [|apply Hsentinel].
      intros [[Hnone _] _]. discriminate Hnone.
Qed.

Lemma C3_probe_never_raises_witness :
  exists r : ProbeResult,
    check_akamai_cache (fun _ => Raise (OtherException "Connection timeout")) py_re
      "https://example.com/page9" true = Ok r
    /\ error_message r.
Proof.
  destruct (C3_probe_never_raises
              (fun _ => Raise (OtherException "Connection timeout")) py_re
              "https://example.com/page9" true) as [r [Hr [Herr _]]].
  exists r. split; [exact Hr|].
  rewrite (Herr _ eq_refl). unfold error_message. cbn. eauto.
Defined.

End ProbeFacts.

(* ===================================================================== *)
(** * Properties of the route *)
(* ===================================================================== *)

Section RunFacts.

Import Probe Run Spec.

Local Open Scope io_scope.

(** ** The batch loop *)

(** The probes of one batch, in completion order: no event, no exception. *)
Lemma collect_batch env chk (l : list string) (acc : list ProbeResult) :
  for_each l
    (fun results url =>
       result <~ lift (check_akamai_cache (get env) (re env) url chk) ;;
       ret (results ++ [result]))
    acc
  = (Ok (acc ++ map (fun u => probe (get env) (re env) u chk) l), []).
Proof.
  revert acc; induction l as [|u l IH]; intros acc; cbn [for_each map].
  - rewrite app_nil_r. reflexivity.
  - rewrite check_akamai_cache_total. unfold lift, ret, iobind at 2. cbn [app].
    unfold iobind. rewrite IH. rewrite <- app_assoc. reflexivity.
Qed.

Lemma batch_step_eq env size delay chk urls results i :
  batch_step env size delay chk urls results i
  = (Ok (results ++ map (fun u => probe (get env) (re env) u chk)
                        (as_completed env (slice urls i (i + size)))),
     turn_events size delay urls i).
Proof.
  unfold batch_step, turn_events. rewrite collect_batch.
  unfold iobind, emit, ret.
  destruct (i + size <? Z.of_nat (List.length urls))%Z; reflexivity.
Qed.

Lemma batch_loop_eq env size delay chk urls starts acc :
  exists results,
    for_each starts (batch_step env size delay chk urls) acc
    = (Ok results, flat_map (turn_events size delay urls) starts).
Proof.
  revert acc; induction starts as [|i starts IH]; intros acc; cbn [for_each flat_map].
  - eexists. reflexivity.
  - rewrite batch_step_eq. unfold iobind.
    destruct (IH (acc ++ map (fun u => probe (get env) (re env) u chk)
                              (as_completed env (slice urls i (i + size))))) as [r ->].
    exists r. reflexivity.
Qed.

(** ** Arithmetic of the partition *)

Lemma ceil_bounds n b :
  (0 <= n -> 0 < b ->
   0 <= (n + b - 1) / b
   /\ ((n + b - 1) / b - 1) * b < n
   /\ n <= (n + b - 1) / b * b)%Z.
Proof.
  intros Hn Hb.
  pose proof (Z.div_mod (n + b - 1) b ltac:(lia)) as Hdm.
  pose proof (Z.mod_pos_bound (n + b - 1) b Hb) as Hm.
  assert (0 <= (n + b - 1) / b)%Z by (apply Z.div_pos; lia).
  nia.
Qed.

Lemma range_from_zero n b :
  (0 <= n)%Z -> (0 < b)%Z ->
  range 0 n b
  = Ok (map (fun k => (Z.of_nat k * b)%Z) (seq 0 (Z.to_nat ((n + b - 1) / b)))).
Proof.
  intros Hn Hb. unfold range.
  destruct (Z.eqb_spec b 0) as [->|_]; [lia|].
  destruct (Z.ltb_spec 0 b) as [_|]; [|lia].
  f_equal.
  replace (if (0 <? n)%Z then ((n - 0 - 1) / b + 1)%Z else 0%Z)
    with ((n + b - 1) / b)%Z.
  - apply map_ext. intros k. lia.
  - destruct (Z.ltb_spec 0 n).
    + replace (n + b - 1)%Z with (n - 0 - 1 + 1 * b)%Z by lia.
      rewrite Z.div_add by lia. reflexivity.
    + replace n with 0%Z by lia. apply Z.div_small. lia.
Qed.

(** ** Lists cut into consecutive groups *)

Lemma firstn_add {A} (a b : nat) (l : list A) :
  firstn (a + b) l = firstn a l ++ firstn b (skipn a l).
Proof.
  revert l; induction a as [|a IH]; intros l; [reflexivity|].
  destruct l as [|x l]; cbn [Nat.add firstn skipn app].
  - rewrite firstn_nil. reflexivity.
  - rewrite IH. reflexivity.
Qed.

Lemma concat_chunks {A} (size : nat) (l : list A) (K : nat) :
  concat (map (chunk size l) (seq 0 K)) = firstn (K * size) l.
Proof.
  induction K as [|K IH]; [reflexivity|].
  rewrite seq_S, map_app, concat_app, IH. cbn [Nat.add map concat].
  rewrite app_nil_r. unfold chunk.
  rewrite <- firstn_add. f_equal. lia.
Qed.

Lemma length_chunk {A} (size : nat) (l : list A) (k : nat) :
  List.length (chunk size l k) = Nat.min size (List.length l - k * size).
Proof. unfold chunk. rewrite length_firstn, length_skipn. reflexivity. Qed.

(** The slice of a turn is the group of that turn. *)
Lemma slice_chunk {A} (l : list A) (b : Z) (k : nat) :
  (0 < b)%Z -> (Z.of_nat k * b <= Z.of_nat (List.length l))%Z ->
  slice l (Z.of_nat k * b) (Z.of_nat k * b + b) = chunk (Z.to_nat b) l k.
Proof.
  intros Hb Hk. unfold slice, clamp, chunk.
  destruct (Z.ltb_spec (Z.of_nat k * b) 0); [nia|].
  destruct (Z.ltb_spec (Z.of_nat k * b + b) 0); [nia|].
  replace (Z.to_nat (Z.min (Z.of_nat k * b) (Z.of_nat (List.length l))))
    with (k * Z.to_nat b)%nat by nia.
  destruct (Z.le_ge_cases (Z.of_nat k * b + b) (Z.of_nat (List.length l))) as [Hle|Hge].
  - rewrite Z.min_l by exact Hle. f_equal. nia.
  - rewrite Z.min_r by exact Hge. rewrite Nat2Z.id.
    rewrite !firstn_all2; [reflexivity| |]; rewrite length_skipn; nia.
Qed.

Lemma intersperse_turns {A} (sep : A) (f : nat -> A) (K s : nat) :
  flat_map (fun k => f k :: (if (S k <? s + K)%nat then [sep] else [])) (seq s K)
  = intersperse sep (map f (seq s K)).
Proof.
  revert s; induction K as [|K IH]; intros s; [reflexivity|].
  cbn [seq flat_map map intersperse].
  replace (s + S K)%nat with (S s + K)%nat by lia.
  rewrite IH.
  destruct K as [|K]; cbn [seq map app].
  - destruct (Nat.ltb_spec (S s) (S s + 0)); [lia|reflexivity].
  - destruct (Nat.ltb_spec (S s) (S s + S K)); [reflexivity|lia].
Qed.

Lemma batches_of_intersperse delay (groups : list (list string)) :
  batches_of (intersperse (EvSleep delay) (map EvBatch groups)) = groups.
Proof.
  induction groups as [|g groups IH]; [reflexivity|].
  cbn [map intersperse]. destruct groups as [|g' groups]; [reflexivity|].
  cbn [map] in *. unfold batches_of in *. cbn [flat_map app] in *.
  rewrite IH. reflexivity.
Qed.

Lemma sleeps_of_intersperse delay (groups : list (list string)) :
  sleeps_of (intersperse (EvSleep delay) (map EvBatch groups))
  = pred (List.length groups).
Proof.
  induction groups as [|g groups IH]; [reflexivity|].
  cbn [map intersperse]. destruct groups as [|g' groups]; [reflexivity|].
  cbn [map] in *. unfold sleeps_of in *. cbn [filter List.length] in *.
  rewrite IH. reflexivity.
Qed.

(** The trace of the batch loop: the groups of the list with a pause
    between every two neighbours. *)
Lemma process_batches_trace env size delay chk urls :
  (0 < size)%Z ->
  exists results,
    process_batches env size delay chk urls
    = (Ok results,
       intersperse (EvSleep delay)
         (map EvBatch
            (map (chunk (Z.to_nat size) urls)
                 (seq 0 (Z.to_nat ((Z.of_nat (List.length urls) + size - 1) / size)))))).
Proof.
  intros Hb. unfold process_batches.
  rewrite range_from_zero by lia.
  set (n := Z.of_nat (List.length urls)).
  set (K := Z.to_nat ((n + size - 1) / size)).
  destruct (ceil_bounds n size ltac:(lia) Hb) as [HK0 [HKlo HKhi]].
  destruct (batch_loop_eq env size delay chk urls
              (map (fun k => (Z.of_nat k * size)%Z) (seq 0 K)) []) as [results Hloop].
  exists results. unfold lift, iobind at 1. rewrite Hloop. cbn [app]. f_equal.
  rewrite flat_map_concat_map, map_map, <- flat_map_concat_map.
  rewrite map_map.
  rewrite <- (intersperse_turns (EvSleep delay)
                (fun k => EvBatch (chunk (Z.to_nat size) urls k)) K 0).
  rewrite !flat_map_concat_map. f_equal. apply map_ext_in.
  intros k Hk. apply in_seq in Hk. unfold turn_events. fold n.
  assert (Hkb : (Z.of_nat k * size <= n)%Z) by (subst K; nia).
  rewrite slice_chunk by (try exact Hb; exact Hkb).
  f_equal. cbn [Nat.add].
  destruct (Z.ltb_spec (Z.of_nat k * size + size) n);
    destruct (Nat.ltb_spec (S k) K); try reflexivity; subst K; nia.
Qed.

Lemma nth_error_map_seq {A} (f : nat -> A) (K k : nat) (x : A) :
  nth_error (map f (seq 0 K)) k = Some x -> (k < K)%nat /\ x = f k.
Proof.
  intros H.
  assert (Hk : (k < K)%nat).
  { assert (Hl : (k < List.length (map f (seq 0 K)))%nat)
      by (apply nth_error_Some; congruence).
    rewrite length_map, length_seq in Hl. exact Hl. }
  split; [exact Hk|].
  rewrite nth_error_map in H.
  destruct (nth_error (seq 0 K) k) as [j|] eqn:Hj; [|discriminate].
  apply (nth_error_nth _ _ 0%nat) in Hj. rewrite seq_nth in Hj by exact Hk.
  cbn in H. inversion H. subst. reflexivity.
Qed.

(** C8.  For a positive batch size the scheduler cuts the URL list into
    consecutive groups: their concatenation is the list, there are
    ceil(n / size) of them, every group but the last has exactly [size]
    elements and the last has between one and [size]; the trace is the
    groups in order with one pause between every two neighbours, so no
    pause follows the last group.  With 25 URLs a batch size of 3 gives 9
    groups and 8 pauses, and a batch size of 10 gives 3 groups and 2
    pauses. *)
Theorem C8_batch_partition (env : Env) (check_aem : bool) (delay : Q)
        (size : Z) (urls : list string) :
  (0 < size)%Z ->
  exists (results : list ProbeResult) (groups : list (list string)),
    process_batches env size delay check_aem urls
    = (Ok results, intersperse (EvSleep delay) (map EvBatch groups))
    /\ batches_of (snd (process_batches env size delay check_aem urls)) = groups
    /\ concat groups = urls
    /\ Z.of_nat (List.length groups)
       = ((Z.of_nat (List.length urls) + size - 1) / size)%Z
    /\ (forall k g, nth_error groups k = Some g ->
          (1 <= List.length g)%nat
          /\ (Z.of_nat (List.length g) <= size)%Z
          /\ ((S k < List.length groups)%nat -> Z.of_nat (List.length g) = size))
    /\ sleeps_of (snd (process_batches env size delay check_aem urls))
       = pred (List.length groups)
    /\ (List.length urls = 25%nat -> size = 3%Z ->
        List.length groups = 9%nat
        /\ sleeps_of (snd (process_batches env size delay check_aem urls)) = 8%nat)
    /\ (List.length urls = 25%nat -> size = 10%Z ->
        List.length groups = 3%nat
        /\ sleeps_of (snd (process_batches env size delay check_aem urls)) = 2%nat).
Proof.
  intros Hb.
  destruct (process_batches_trace env size delay check_aem urls Hb) as [results Htr].
  set (n := Z.of_nat (List.length urls)) in *.
  set (K := Z.to_nat ((n + size - 1) / size)) in *.
  set (groups := map (chunk (Z.to_nat size) urls) (seq 0 K)) in *.
  destruct (ceil_bounds n size ltac:(lia) Hb) as [HK0 [HKlo HKhi]].
  assert (HKz : Z.of_nat K = ((n + size - 1) / size)%Z) by (subst K; lia).
  assert (Hlen : List.length groups = K).
  { subst groups. rewrite length_map, length_seq. reflexivity. }
  assert (Hsleeps : sleeps_of (snd (process_batches env size delay check_aem urls))
                    = pred (List.length groups)).
  { rewrite Htr. cbn [snd]. apply sleeps_of_intersperse. }
  exists results, groups.
  split; [exact Htr|].
  split; [rewrite Htr; cbn [snd]; apply batches_of_intersperse|].
  split.
  { subst groups. rewrite concat_chunks. apply firstn_all2. nia. }
  split; [rewrite Hlen; exact HKz|].
  split.
  { intros k g Hg. subst groups. apply nth_error_map_seq in Hg.
    destruct Hg as [Hk ->]. rewrite length_chunk, length_map, length_seq.
    repeat split; [nia|nia|intros HS; nia]. }
  split; [exact Hsleeps|].
  split; intros H25 ->; rewrite Hsleeps, Hlen; subst K n; rewrite H25;
    split; reflexivity.
Qed.

Lemma C8_batch_partition_witness :
  (0 < URL_BATCH_SIZE)%Z
  /\ exists (results : list ProbeResult) (groups : list (list string)),
       process_batches
         (mkEnv (fun _ => Ok []) (fun _ => Raise (OtherException "refused")) py_re
                (fun l => l) "")
         URL_BATCH_SIZE BATCH_DELAY false ["a"; "b"; "c"; "d"; "e"; "f"; "g"]
       = (Ok results, intersperse (EvSleep BATCH_DELAY) (map EvBatch groups))
       /\ concat groups = ["a"; "b"; "c"; "d"; "e"; "f"; "g"]
       /\ List.length groups = 3%nat.
Proof.
  split; [reflexivity|].
  destruct (C8_batch_partition
              (mkEnv (fun _ => Ok []) (fun _ => Raise (OtherException "refused")) py_re
                     (fun l => l) "")
              false BATCH_DELAY URL_BATCH_SIZE ["a"; "b"; "c"; "d"; "e"; "f"; "g"]
              eq_refl)
    as [results [groups [Htr [_ [Hcat [Hlen _]]]]]].
  exists results, groups. split; [exact Htr|]. split; [exact Hcat|].
  apply Nat2Z.inj. rewrite Hlen. reflexivity.
Defined.

(** ** The summary *)

Lemma count_disjoint {A} (p q : A -> bool) (l : list A) :
  (forall x, p x = true -> q x = false) ->
  (count p l + count q l <= Z.of_nat (List.length l))%Z.
Proof.
  intros Hpq. unfold count.
  induction l as [|x l IH]; cbn [filter List.length]; [lia|].
  destruct (p x) eqn:Hp.
  - rewrite (Hpq x Hp). cbn [List.length]. lia.
  - destruct (q x); cbn [List.length]; lia.
Qed.

Lemma round_half_even_close (x : Q) :
  (Qabs (inject_Z (round_half_even x) - x) <= 1 # 2)%Q.
Proof.
  unfold round_half_even.
  pose proof (Qfloor_le x) as Hlo. pose proof (Qlt_floor x) as Hhi.
  rewrite inject_Z_plus in Hhi. change (inject_Z 1) with 1%Q in Hhi.
  apply Qabs_Qle_condition.
  destruct (x - inject_Z (Qfloor x) ?= 1 # 2)%Q eqn:Hc.
  - apply Qeq_alt in Hc.
    destruct (Z.even (Qfloor x));
      [|rewrite inject_Z_plus; change (inject_Z 1) with 1%Q]; split; lra.
  - apply Qlt_alt in Hc. split; lra.
  - apply Qgt_alt in Hc.
    rewrite inject_Z_plus; change (inject_Z 1) with 1%Q. split; lra.
Qed.

Lemma round2_rounded (q : Q) :
  exists r, round2 (Float q) = Float r /\ rounded_to_2_decimals q r.
Proof.
  eexists. split; [reflexivity|]. split.
  - eexists. reflexivity.
  - pose proof (round_half_even_close (q * 100)) as H.
    apply Qabs_Qle_condition in H. apply Qabs_Qle_condition.
    set (k := inject_Z (round_half_even (q * 100))) in *.
    unfold Qdiv. change (/ 100)%Q with (1 # 100)%Q.
    split; lra.
Qed.

(** The statistics block never raises: the division is guarded. *)
Lemma summarize_total (results : list ProbeResult) :
  exists s : Summary, summarize results = Ok s.
Proof.
  unfold summarize. cbv zeta.
  match goal with
  | |- context [(?ct >? 0)%Z] => destruct (Z.gtb_spec ct 0) as [Hpos|_]
  end.
  - unfold truediv.
    match goal with
    | |- context [(?ct =? 0)%Z] => destruct (Z.eqb_spec ct 0) as [E|_]; [lia|]
    end.
    cbn [bind]. eexists. reflexivity.
  - cbn [bind]. eexists. reflexivity.
Qed.

(** C7.  The summary is always produced.  With cacheable_total = total -
    not_cacheable - errors, which is never negative, the hit ratio is
    hits / cacheable_total * 100 rounded to two decimals when
    cacheable_total is positive, and the integer 0 when it is zero: the
    division is never attempted with a zero divisor. *)
Theorem C7_hit_ratio (results : list ProbeResult) :
  exists s : Summary,
    summarize results = Ok s
    /\ total_urls s = Z.of_nat (List.length results)
    /\ cache_hits s = count (fun r => str_in "HIT" (cache_hit r)) results
    /\ not_cacheable s
       = count (fun r => String.eqb (cache_hit r) "NOT_CACHEABLE") results
    /\ errors s = count (fun r => String.eqb (cache_hit r) "ERROR") results
    /\ (0 <= total_urls s - not_cacheable s - errors s)%Z
    /\ ((0 < total_urls s - not_cacheable s - errors s)%Z ->
        exists r : Q,
          cache_hit_ratio s = Float r
          /\ rounded_to_2_decimals
               (inject_Z (cache_hits s)
                / inject_Z (total_urls s - not_cacheable s - errors s) * 100)%Q r)
    /\ ((total_urls s - not_cacheable s - errors s = 0)%Z ->
        cache_hit_ratio s = Int 0).
Proof.
  unfold summarize.
  set (total := Z.of_nat (List.length results)).
  set (hits := count (fun r => str_in "HIT" (cache_hit r)) results).
  set (nc := count (fun r => String.eqb (cache_hit r) "NOT_CACHEABLE") results).
  set (errs := count (fun r => String.eqb (cache_hit r) "ERROR") results).
  assert (Hct : (0 <= total - nc - errs)%Z).
  { pose proof (count_disjoint
                  (fun r => String.eqb (cache_hit r) "NOT_CACHEABLE")
                  (fun r => String.eqb (cache_hit r) "ERROR") results) as H.
    cbv beta in H. fold nc errs total in H.
    assert (nc + errs <= total)%Z; [|lia].
    apply H. intros x Hx. apply String.eqb_eq in Hx. rewrite Hx. reflexivity. }
  cbv zeta.
  destruct (Z.gtb_spec (total - nc - errs) 0) as [Hpos|Hzero].
  - unfold truediv. destruct (Z.eqb_spec (total - nc - errs) 0) as [E|_]; [lia|].
    cbn [bind].
    eexists. split; [reflexivity|]. cbn [total_urls cache_hits not_cacheable errors
                                        cache_hit_ratio].
    repeat (split; [first [reflexivity | exact Hct]|]).
    split; [|intros E; fold total nc errs in E; lia].
    intros _. apply round2_rounded.
  - cbn [bind].
    eexists. split; [reflexivity|]. cbn [total_urls cache_hits not_cacheable errors
                                        cache_hit_ratio].
    repeat (split; [first [reflexivity | exact Hct]|]).
    split; [intros Hp; fold total nc errs in Hp; lia|].
    intros _. reflexivity.
Qed.

Lemma C7_hit_ratio_witness :
  exists s : Summary,
    summarize mixed_results = Ok s
    /\ cache_hits s = 6%Z
    /\ (total_urls s - not_cacheable s - errors s = 8)%Z
    /\ exists r : Q,
         cache_hit_ratio s = Float r
         /\ rounded_to_2_decimals (inject_Z 6 / inject_Z 8 * 100)%Q r.
Proof.
  destruct (C7_hit_ratio mixed_results)
    as [s [Hs [Ht [Hh [Hn [He [_ [Hpos _]]]]]]]].
  assert (Hhits : cache_hits s = 6%Z) by (rewrite Hh; reflexivity).
  assert (Hct : (total_urls s - not_cacheable s - errors s = 8)%Z)
    by (rewrite Ht, Hn, He; reflexivity).
  exists s. split; [exact Hs|]. split; [exact Hhits|]. split; [exact Hct|].
  rewrite Hct, Hhits in Hpos. apply Hpos. reflexivity.
Defined.

(** ** The route *)

Lemma iobind_emit {B} (e : event) (k : unit -> io B) :
  iobind (emit e) k = (fst (k tt), e :: snd (k tt)).
Proof. unfold iobind, emit. destruct (k tt). reflexivity. Qed.

Lemma iobind_lift_ok {A B} (a : A) (k : A -> io B) : iobind (lift (Ok a)) k = k a.
Proof. unfold iobind, lift. destruct (k a). reflexivity. Qed.

Lemma body_sitemap_url (data : Request) :
  json_get data "sitemap_url" (JStr "")
  = Ok (JStr (match sitemap_url data with Some u => u | None => "" end)).
Proof. destruct data as [[u|] [c|] [b|] [d|] [m|]]; reflexivity. Qed.

Lemma body_check_aem (data : Request) :
  json_get data "check_aem" (JBool true)
  = Ok (JBool (match check_aem data with Some b => b | None => true end)).
Proof. destruct data as [[u|] [c|] [b|] [d|] [m|]]; reflexivity. Qed.

(** The route on a request of the expected shape: the two reads of the
    body succeed, with the defaults for the keys left out. *)
Lemma test_sitemap_request (env : Env) (data : Request) :
  test_sitemap env data
  = let sitemap_url :=
      strip (match sitemap_url data with Some u => u | None => "" end) in
    let check_aem := match check_aem data with Some b => b | None => true end in
    if negb (truthy sitemap_url) then
      ret (ErrorReply "Please provide a sitemap URL" 400)
    else
      catch_500
        (emit (EvParseSitemap sitemap_url) ;;;
         urls <~ lift (parse_sitemap env sitemap_url) ;;
         if negb (Scorer.nonempty urls) then
           ret (ErrorReply "No URLs found in sitemap" 400)
         else
           let max_urls := 100%Z in
           let urls :=
             if (Z.of_nat (List.length urls) >? max_urls)%Z
             then slice urls 0 max_urls else urls in
           results <~ process_batches env URL_BATCH_SIZE BATCH_DELAY check_aem urls ;;
           summary <~ lift (summarize results) ;;
           ret (Success summary results (now env))).
Proof.
  unfold test_sitemap. rewrite body_sitemap_url, body_check_aem.
  cbn [bind json_strip].
  rewrite iobind_lift_ok. cbv beta. rewrite iobind_lift_ok. reflexivity.
Qed.

(** Every body is refused by one of the two reads, or is treated like a
    request of the expected shape. *)
Lemma test_sitemap_bodies (env : Env) (data : json) :
  (exists msg, test_sitemap env data = (Raise (AttributeError msg), []))
  \/ (exists request : Request, test_sitemap env data = test_sitemap env request).
Proof.
  destruct data as [| | | | |l|d];
    try (left; eexists; reflexivity).
  destruct (match find (fun kv => String.eqb (fst kv) "sitemap_url") d with
            | Some kv => snd kv
            | None => JStr ""
            end) as [| | | |u| |] eqn:Hu;
    try (left; unfold test_sitemap; cbn [json_get bind]; rewrite Hu;
         eexists; reflexivity).
  right.
  exists (mkRequest (Some u)
            (Some (json_truthy
                     (match find (fun kv => String.eqb (fst kv) "check_aem") d with
                      | Some kv => snd kv
                      | None => JBool true
                      end))) None None None).
  rewrite test_sitemap_request. cbn [sitemap_url check_aem json_strip].
  unfold test_sitemap. cbn [json_get bind]. rewrite Hu. cbn [json_strip].
  rewrite iobind_lift_ok. cbv beta. rewrite iobind_lift_ok. reflexivity.
Qed.

(** What the route can answer, and what it does first. *)
Lemma test_sitemap_cases (env : Env) (data : Request) :
  let u := strip (match sitemap_url data with Some u => u | None => "" end) in
  (truthy u = false
   /\ test_sitemap env data = (Ok (ErrorReply "Please provide a sitemap URL" 400), []))
  \/ (truthy u = true
      /\ exists reply rest,
           test_sitemap env data = (Ok reply, EvParseSitemap u :: rest)
           /\ (reply = ErrorReply "No URLs found in sitemap" 400
               \/ (exists msg, reply = ErrorReply msg 500)
               \/ (exists summary results timestamp,
                     reply = Success summary results timestamp))).
Proof.
  cbv zeta. rewrite test_sitemap_request. cbv zeta.
  destruct (truthy (strip _)); cbn [negb]; [right|left; split; reflexivity].
  split; [reflexivity|].
  rewrite iobind_emit. unfold catch_500.
  destruct (parse_sitemap env _) as [urls|e].
  - unfold lift, iobind at 1.
    destruct (Scorer.nonempty urls); cbn [negb].
    + match goal with
      | |- context [process_batches ?env ?b ?d ?c ?l] =>
          destruct (process_batches_trace env b d c l eq_refl) as [results ->]
      end.
      unfold iobind, lift, ret.
      destruct (summarize_total results) as [s ->]. cbn [fst snd app].
      eexists. eexists. split; [reflexivity|]. right. right. eauto.
    + unfold ret. cbn [fst snd app].
      eexists. eexists. split; [reflexivity|]. left. reflexivity.
  - unfold lift, iobind. cbn [fst snd].
    eexists. eexists. split; [reflexivity|]. right. left. eauto.
Qed.

(** C4 fails on the code.  The route does not read the batch size, the
    batch delay or the maximum number of URLs of a request: the answer is
    the same whatever they are.  For the request of the invalid-batch-size
    test (batch size 0) the route goes on to fetch the sitemap, and with a
    sitemap of one page it answers with a summary.  The only answers with
    status 400 are the two about the sitemap. *)
Theorem C4_configuration_not_validated :
  (forall env url chk size delay limit,
     test_sitemap env (mkRequest url chk size delay limit)
     = test_sitemap env (mkRequest url chk None None None))
  /\ (forall env, exists reply rest,
        test_sitemap env invalid_batch_size_request
        = (Ok reply, EvParseSitemap "https://example.com/sitemap.xml" :: rest))
  /\ (exists summary results,
        test_sitemap one_page_env invalid_batch_size_request
        = (Ok (Success summary results "2025-01-01T00:00:00"),
           [EvParseSitemap "https://example.com/sitemap.xml";
            EvBatch ["https://example.com/page1"]])
        /\ total_urls summary = 1%Z)
  /\ (forall env data msg,
        fst (test_sitemap env data) = Ok (ErrorReply msg 400) ->
        msg = "Please provide a sitemap URL" \/ msg = "No URLs found in sitemap").
Proof.
  split; [intros; rewrite !test_sitemap_request; reflexivity|]. split; [|split].
  - intros env.
    destruct (test_sitemap_cases env invalid_batch_size_request)
      as [[Hf _]|[_ [reply [rest [H _]]]]]; [discriminate Hf|].
    exists reply, rest. exact H.
  - eexists. eexists. split; [vm_compute; reflexivity|reflexivity].
  - intros env data msg H.
    destruct (test_sitemap_bodies env data) as [[m E]|[request E]];
      rewrite E in H; [discriminate H|].
    destruct (test_sitemap_cases env request)
      as [[_ E']|[_ [reply [rest [E' [R|[[m R]|[s [rs [t R]]]]]]]]]];
      rewrite E' in H; cbn [fst] in H; try subst reply; inversion H; auto.
Qed.

End RunFacts.

(* ===================================================================== *)
(** * Further properties of the classifier and the probe *)
(* ===================================================================== *)

Section ClassifierMore.

Import Classifier Spec.

Lemma first_match_header_verdict s v :
  first_match ladder s = Some v -> In v header_verdicts.
Proof.
  unfold ladder, first_match, header_verdicts.
  repeat match goal with
         | |- context [if ?b then Some _ else _] =>
             destruct b; [intros H; inversion H; cbn; tauto|]
         end.
  discriminate.
Qed.

Lemma timing_verdict_not_header t : ~ In (fst (timing_verdict t)) header_verdicts.
Proof.
  unfold timing_verdict, header_verdicts.
  destruct (t <? 100)%Z; [|destruct (t >? 500)%Z]; cbn;
    intros H; repeat (destruct H as [H|H]; [discriminate H|]); exact H.
Qed.

Lemma timing_verdict_time t : snd (timing_verdict t) = Some t.
Proof.
  unfold timing_verdict.
  destruct (t <? 100)%Z; [|destruct (t >? 500)%Z]; reflexivity.
Qed.

(** X1.  The classifier never raises and its verdict is one of the nine
    verdicts; in particular it is never the error marker. *)
Theorem X1_classifier_exhaustive (s : Signals) :
  exists (v : string) (t : option Z),
    determine_cache_hit s = Ok (v, t) /\ In v verdicts /\ v <> "ERROR".
Proof.
  rewrite determine_cache_hit_ladder.
  pose proof (ladder_verdict_in s) as Hin.
  destruct (ladder_verdict s) as [v t]. cbn [fst] in Hin.
  exists v, t. split; [reflexivity|]. split; [exact Hin|].
  intros ->. revert Hin. cbn.
  intros H; repeat (destruct H as [H|H]; [discriminate H|]); exact H.
Qed.

(** X2.  A response time is recorded exactly when the verdict comes from
    the timing rule: with a time [ms] the verdict is the one the
    thresholds give for [ms], and without a time it is one of the six
    verdicts of the header rules, which the timing rule never gives. *)
Theorem X2_response_time_only_from_timing (s : Signals) (v : string) (t : option Z) :
  determine_cache_hit s = Ok (v, t) ->
  match t with
  | Some ms => (v, t) = timing_verdict ms /\ ~ In v header_verdicts
  | None => In v header_verdicts
  end.
Proof.
  rewrite determine_cache_hit_ladder. unfold ladder_verdict, rule7.
  destruct (first_match ladder s) as [v'|] eqn:Hfm.
  - intros H; inversion H; subst. eapply first_match_header_verdict, Hfm.
  - destruct (timing_rule_applies s);
      [destruct (elapsed_ms (x_timer s)) as [ms|e]|].
    + intros H. inversion H as [Hv].
      pose proof (timing_verdict_time ms) as Ht. rewrite Hv in Ht. cbn [snd] in Ht.
      subst t. split; [reflexivity|].
      pose proof (timing_verdict_not_header ms) as Hn. rewrite Hv in Hn. exact Hn.
    + intros H; inversion H; subst. cbn; tauto.
    + intros H; inversion H; subst. cbn; tauto.
Qed.

Lemma X2_response_time_only_from_timing_witness :
  determine_cache_hit (mkSignals "NOT_FOUND" "UNKNOWN" "0" "S1,VS0,VS0,VE250")
  = Ok ("UNKNOWN (timing inconclusive)", Some 250%Z)
  /\ ("UNKNOWN (timing inconclusive)", Some 250%Z) = timing_verdict 250
  /\ ~ In "UNKNOWN (timing inconclusive)" header_verdicts.
Proof.
  split; [reflexivity|].
  apply (X2_response_time_only_from_timing
           (mkSignals "NOT_FOUND" "UNKNOWN" "0" "S1,VS0,VS0,VE250")
           "UNKNOWN (timing inconclusive)" (Some 250%Z)).
  reflexivity.
Defined.

(** ** The documented timer format *)

Lemma append_nil_r s : (s ++ "")%string = s.
Proof. induction s as [|c s IH]; cbn; [reflexivity|rewrite IH; reflexivity]. Qed.

Lemma append_assoc s t u : ((s ++ t) ++ u)%string = (s ++ (t ++ u))%string.
Proof. induction s as [|c s IH]; cbn; [reflexivity|rewrite IH; reflexivity]. Qed.

Lemma prefix_empty s : String.prefix "" s = true.
Proof. destruct s; reflexivity. Qed.

(** The first occurrence of VE ends the first piece. *)
Lemma split_first_VE pre rest cur :
  str_in "VE" pre = false ->
  split_aux "VE" 0 cur (pre ++ "VE" ++ rest)
  = (cur ++ pre)%string :: split_aux "VE" 0 "" rest.
Proof.
  revert cur; induction pre as [|c pre IH]; intros cur Hpre.
  - cbn. rewrite append_nil_r. destruct rest; reflexivity.
  - cbn [str_in] in Hpre.
    destruct (String.prefix "VE" (String c pre)) eqn:Hp; [discriminate|].
    change ((String c pre ++ "VE" ++ rest)%string)
      with (String c (pre ++ "VE" ++ rest)%string).
    cbn [split_aux].
    assert (Hp' : String.prefix "VE" (String c (pre ++ "VE" ++ rest)) = false).
    { cbn [String.prefix] in Hp |- *.
      destruct (ascii_dec "V" c); [|reflexivity].
      destruct pre as [|c2 pre']; cbn [append String.prefix] in Hp |- *.
      - reflexivity.
      - destruct (ascii_dec "E" c2); [|reflexivity].
        rewrite prefix_empty in Hp. discriminate Hp. }
    rewrite Hp'. rewrite (IH _ Hpre). rewrite append_assoc. reflexivity.
Qed.

(** A string of digits is one piece, for a separator that starts with a
    character that is not a digit. *)
Lemma split_digits sep0 sep cur s :
  is_digit sep0 = false ->
  Forall (fun c => is_digit c = true) (list_ascii_of_string s) ->
  split_aux (String sep0 sep) 0 cur s = [(cur ++ s)%string].
Proof.
  intros Hsep; revert cur; induction s as [|c s IH]; intros cur Hs.
  - cbn. rewrite append_nil_r. reflexivity.
  - cbn [list_ascii_of_string] in Hs. inversion Hs as [|? ? Hc Hs']; subst.
    cbn [split_aux String.prefix].
    destruct (ascii_dec sep0 c) as [->|_]; [congruence|].
    rewrite (IH _ Hs'). rewrite append_assoc. reflexivity.
Qed.

Lemma str_of_uint_digits d :
  Forall (fun c => is_digit c = true)
         (list_ascii_of_string (NilEmpty.string_of_uint d)).
Proof.
  induction d; cbn; constructor; auto.
Qed.

Lemma digits_of_uint d acc prev :
  (d <> Decimal.Nil \/ prev = true) ->
  digits (Z.of_nat acc) prev (list_ascii_of_string (NilEmpty.string_of_uint d))
  = Some (Z.of_nat (Nat.of_uint_acc d acc)).
Proof.
  revert acc prev; induction d; intros acc prev H;
    cbn [NilEmpty.string_of_uint list_ascii_of_string digits Nat.of_uint_acc].
  1: { destruct H as [H| ->]; [congruence|reflexivity]. }
  all: match goal with
       | |- context [is_digit ?c] => change (is_digit c) with true
       end; cbv iota; rewrite Nat.tail_mul_spec;
    match goal with
    | |- digits ?z _ _ = Some (Z.of_nat (Nat.of_uint_acc _ ?a)) =>
        replace z with (Z.of_nat a)
          by (match goal with
              | |- context [digit_val ?c] =>
                  let v := eval vm_compute in (digit_val c) in
                  change (digit_val c) with v
              end; lia)
    end; apply IHd; right; reflexivity.
Qed.

Lemma to_uint_nonnil n : Nat.to_uint n <> Decimal.Nil.
Proof.
  rewrite <- (DecimalNat.Unsigned.of_to n) at 1. rewrite DecimalNat.Unsigned.to_of.
  apply DecimalFacts.unorm_nonnil.
Qed.

Lemma drop_while_digit p c l :
  p c = false -> drop_while p (c :: l) = c :: l.
Proof. intros H. cbn. rewrite H. reflexivity. Qed.

Lemma digit_not_space c : is_digit c = true -> int_space c = false.
Proof.
  destruct c as [[] [] [] [] [] [] [] []]; cbn; intros H; try reflexivity; discriminate H.
Qed.

Lemma strip_digits s :
  Forall (fun c => is_digit c = true) (list_ascii_of_string s) ->
  strip_with int_space s = s.
Proof.
  intros H. unfold strip_with.
  assert (Hd : forall l, Forall (fun c => is_digit c = true) l ->
                         drop_while int_space l = l).
  { intros l Hl. destruct Hl as [|c l Hc Hl]; [reflexivity|].
    apply drop_while_digit, digit_not_space, Hc. }
  rewrite (Hd _ H). rewrite Hd by (apply Forall_rev, H).
  rewrite rev_involutive. apply string_of_list_ascii_of_string.
Qed.

Lemma int_str_of_nat n :
  (String.length (Scorer.str_of_nat n) <= int_max_str_digits)%nat ->
  int (Scorer.str_of_nat n) = Ok (Z.of_nat n).
Proof.
  intros Hlen. unfold int, Scorer.str_of_nat in *.
  pose proof (str_of_uint_digits (Nat.to_uint n)) as Hd.
  rewrite strip_digits by exact Hd.
  pose proof (digits_of_uint (Nat.to_uint n) 0 false (or_introl (to_uint_nonnil n))) as Hv.
  change (Nat.of_uint_acc (Nat.to_uint n) 0) with (Nat.of_uint (Nat.to_uint n)) in Hv.
  rewrite DecimalNat.Unsigned.of_to in Hv. cbn [Z.of_nat] in Hv.
  destruct (list_ascii_of_string (NilEmpty.string_of_uint (Nat.to_uint n)))
    as [|c l] eqn:El.
  - cbn in Hv. discriminate Hv.
  - inversion Hd as [|? ? Hc Hl]; subst.
    assert (Hplus : Ascii.eqb c "+" = false)
      by (destruct c as [[] [] [] [] [] [] [] []];
          first [reflexivity | vm_compute in Hc; discriminate Hc]).
    assert (Hminus : Ascii.eqb c "-" = false)
      by (destruct c as [[] [] [] [] [] [] [] []];
          first [reflexivity | vm_compute in Hc; discriminate Hc]).
    rewrite Hplus, Hminus. rewrite Hv.
    assert (Hf : filter is_digit (c :: l) = c :: l).
    { apply forallb_filter_id. apply forallb_forall. apply Forall_forall. exact Hd. }
    rewrite Hf.
    assert (Hl' : List.length (c :: l)
                  = String.length (NilEmpty.string_of_uint (Nat.to_uint n))).
    { rewrite <- El. clear. induction (NilEmpty.string_of_uint (Nat.to_uint n));
        cbn; congruence. }
    rewrite Hl'.
    destruct (Nat.ltb_spec int_max_str_digits
                (String.length (NilEmpty.string_of_uint (Nat.to_uint n)))); [lia|].
    f_equal. lia.
Qed.

(** The timing branch on a header in the documented format. *)
Lemma timing_fastly pre n :
  str_in "VE" pre = false ->
  (String.length (Scorer.str_of_nat n) <= int_max_str_digits)%nat ->
  timing (pre ++ "VE" ++ Scorer.str_of_nat n) = Ok (timing_verdict (Z.of_nat n)).
Proof.
  intros Hpre Hlen. rewrite timing_elapsed. unfold elapsed_ms, ve_part, split.
  rewrite split_first_VE by exact Hpre.
  pose proof (str_of_uint_digits (Nat.to_uint n)) as Hd.
  fold (Scorer.str_of_nat n) in Hd.
  rewrite (split_digits "V" "E" "" _ eq_refl Hd).
  cbn [index nth_error bind append].
  rewrite (split_digits "," "" "" _ eq_refl Hd).
  cbn [index nth_error bind append].
  rewrite int_str_of_nat by exact Hlen. reflexivity.
Qed.

Lemma prefix_append sub rest : String.prefix sub (sub ++ rest) = true.
Proof.
  induction sub as [|c sub IH]; cbn [append String.prefix].
  - apply prefix_empty.
  - destruct (ascii_dec c c); [exact IH|congruence].
Qed.

Lemma str_in_append pre sub rest : str_in sub (pre ++ sub ++ rest) = true.
Proof.
  induction pre as [|c pre IH].
  - cbn [append]. destruct (sub ++ rest)%string eqn:E; cbn [str_in];
      rewrite <- E, prefix_append; reflexivity.
  - cbn [append str_in]. rewrite IH. destruct (String.prefix sub _); reflexivity.
Qed.

(** X3.  A timing header in the documented format, S<start>,VS..,VE<ms>
    with the elapsed time written in decimal after the first VE, gives back
    that number: when rules 1 to 6 do not match, the response time is the
    number and the verdict is the one of the thresholds.  The number has
    to be short enough for [int] (the default limit is 4300 digits). *)
Theorem X3_documented_timer_format (s : Signals) (pre : string) (n : nat) :
  first_match ladder s = None ->
  x_timer s = (pre ++ "VE" ++ Scorer.str_of_nat n)%string ->
  str_in "VE" pre = false ->
  (String.length (Scorer.str_of_nat n) <= int_max_str_digits)%nat ->
  determine_cache_hit s = Ok (timing_verdict (Z.of_nat n))
  /\ snd (timing_verdict (Z.of_nat n)) = Some (Z.of_nat n).
Proof.
  intros Hfm Hx Hpre Hlen. split; [|apply timing_verdict_time].
  rewrite determine_cache_hit_ladder. unfold ladder_verdict, rule7. rewrite Hfm.
  assert (Hin : str_in "VE" (x_timer s) = true) by (rewrite Hx; apply str_in_append).
  assert (Hnf : String.eqb (x_timer s) "NOT_FOUND" = false).
  { destruct (String.eqb_spec (x_timer s) "NOT_FOUND") as [E|_]; [|reflexivity].
    rewrite E in Hin. discriminate Hin. }
  unfold timing_rule_applies. rewrite Hnf, Hin. cbn [negb andb].
  pose proof (timing_fastly pre n Hpre Hlen) as Ht.
  rewrite timing_elapsed, <- Hx in Ht.
  destruct (elapsed_ms (x_timer s)) as [ms|e]; inversion Ht as [Hv].
  - reflexivity.
  - pose proof (timing_verdict_time (Z.of_nat n)) as Hs.
    rewrite <- Hv in Hs. discriminate Hs.
Qed.

Lemma X3_documented_timer_format_witness :
  determine_cache_hit
    (mkSignals "NOT_FOUND" "UNKNOWN" "0" "S1763167085.909978,VS0,VS0,VE1000")
  = Ok ("MISS (inferred from timing)", Some 1000%Z).
Proof.
  refine (proj1 (X3_documented_timer_format
                   (mkSignals "NOT_FOUND" "UNKNOWN" "0"
                              "S1763167085.909978,VS0,VS0,VE1000")
                   "S1763167085.909978,VS0,VS0," 1000 eq_refl eq_refl eq_refl _)).
  vm_compute. lia.
Defined.

(** ** The integer after VE *)












(** ** What [int] reads *)








(** ** The timing rule *)



End ClassifierMore.

Section ProbeMore.

Import Probe Spec.

Lemma headers_get_absent h name default :
  header_absent name h -> headers_get h name default = default.
Proof.
  intros Habs. unfold headers_get.
  assert (Hnone : find (fun kv => String.eqb (lower (fst kv)) (lower name)) h = None).
  { induction h as [|[k v] h IH]; [reflexivity|]. cbn [find fst].
    destruct (String.eqb_spec (lower k) (lower name)) as [E|_].
    - exfalso. exact (Habs k v (or_introl eq_refl) E).
    - apply IH. intros k' v' Hin. apply (Habs k' v'). right. exact Hin. }
  rewrite Hnone. reflexivity.
Qed.

(** X4.  The probe echoes the URL it was given, and the three
    platform-detection entries are never partly filled: they hold the
    outcome of the scorer when the check was asked for and the fetch
    succeeded, and all three are unset otherwise. *)
Theorem X4_platform_entries_together (get : string -> result Http.Response)
        (re : Engine) (url : string) (test_for_aem : bool) :
  exists r : ProbeResult,
    check_akamai_cache get re url test_for_aem = Ok r
    /\ Probe.url r = url
    /\ match get url, test_for_aem with
       | Ok response, true =>
           is_aem r = Some (fst (fst (Scorer.detect_aem re response)))
           /\ aem_confidence r = Some (confidence_of (Scorer.detect_aem re response))
           /\ aem_evidence r = Some (evidence_of (Scorer.detect_aem re response))
       | _, _ =>
           is_aem r = None /\ aem_confidence r = None /\ aem_evidence r = None
       end.
Proof.
  unfold check_akamai_cache, try_except.
  destruct (get url) as [response|e]; cbn [bind].
  - rewrite determine_cache_hit_ladder. cbn [bind].
    match goal with
    | |- context [Classifier.ladder_verdict ?s] =>
        destruct (Classifier.ladder_verdict s) as [v t]
    end.
    eexists. split; [reflexivity|]. split; [reflexivity|].
    destruct test_for_aem; cbn; auto.
  - eexists. split; [reflexivity|]. split; [reflexivity|].
    destruct test_for_aem; cbn; auto.
Qed.

(** X5.  A response that carries none of the headers X-Cache,
    X-Check-Cacheable, Age and X-Timer (under any capitalisation) is
    classified UNKNOWN with no response time, and the four echoes are the
    defaults NOT_FOUND, UNKNOWN, 0 and NOT_FOUND. *)
Theorem X5_no_cache_headers_unknown (get : string -> result Http.Response)
        (re : Engine) (url : string) (test_for_aem : bool) (response : Http.Response) :
  get url = Ok response ->
  header_absent "X-Cache" (Http.headers response) ->
  header_absent "X-Check-Cacheable" (Http.headers response) ->
  header_absent "Age" (Http.headers response) ->
  header_absent "X-Timer" (Http.headers response) ->
  exists r : ProbeResult,
    check_akamai_cache get re url test_for_aem = Ok r
    /\ cache_hit r = "UNKNOWN" /\ response_time_ms r = None
    /\ x_cache r = "NOT_FOUND" /\ x_check_cacheable r = "UNKNOWN"
    /\ age r = "0" /\ x_timer r = "NOT_FOUND"
    /\ status_code r = StatusInt (Http.status_code response)
    /\ error r = None.
Proof.
  intros Hget Hc Hk Ha Ht. unfold check_akamai_cache, try_except.
  rewrite Hget. cbn [bind].
  rewrite (headers_get_absent _ "X-Cache" _ Hc),
          (headers_get_absent _ "X-Check-Cacheable" _ Hk),
          (headers_get_absent _ "Age" _ Ha),
          (headers_get_absent _ "X-Timer" _ Ht).
  change (Classifier.determine_cache_hit
            (Classifier.mkSignals "NOT_FOUND" "UNKNOWN" "0" "NOT_FOUND"))
    with (@Ok Classifier.Verdict ("UNKNOWN", None)).
  cbn [bind]. eexists. split; [reflexivity|]. cbn. repeat split; reflexivity.
Qed.

Lemma X5_no_cache_headers_unknown_witness :
  exists r : ProbeResult,
    check_akamai_cache
      (fun u => Ok (Http.mkResponse 200 [("Content-Type", "text/html")] "" u))
      py_re "https://example.com/" false = Ok r
    /\ cache_hit r = "UNKNOWN" /\ response_time_ms r = None.
Proof.
  destruct (X5_no_cache_headers_unknown
              (fun u => Ok (Http.mkResponse 200 [("Content-Type", "text/html")] "" u))
              py_re "https://example.com/" false
              (Http.mkResponse 200 [("Content-Type", "text/html")] ""
                               "https://example.com/")
              eq_refl)
    as [r [Hr [Hv [Ht _]]]];
    try (intros k v [E|[]]; inversion E; subst; vm_compute; discriminate).
  exists r. auto.
Defined.

End ProbeMore.

(* ===================================================================== *)
(** * Further properties of the scorer *)
(* ===================================================================== *)

Section ScorerMore.

Import Scorer Spec.

Local Open Scope Q_scope.

(** ** Shape of the evidence *)

Lemma keys_extend k xs ev : map fst (extend k xs ev) = map fst ev.
Proof.
  induction ev as [|[k' v] ev IH]; [reflexivity|]. cbn [extend].
  destruct (String.eqb k' k); cbn [map fst]; [reflexivity|rewrite IH; reflexivity].
Qed.

Lemma keys_when_found c k s q st :
  map fst (evidence (when c (found k s q) st)) = map fst (evidence st).
Proof. destruct c; cbn; [apply keys_extend|reflexivity]. Qed.

Lemma keys_header_loop hs st :
  map fst (evidence (fold_left header_step hs st)) = map fst (evidence st).
Proof.
  revert st; induction hs as [|[h v] hs IH]; intros st; cbn [fold_left]; [reflexivity|].
  rewrite IH. unfold header_step.
  destruct (existsb _ _); [cbn; apply keys_extend|].
  destruct (str_in _ _); [cbn; apply keys_extend|reflexivity].
Qed.

Lemma scan_keys re response : map fst (evidence (scan re response)) = categories.
Proof.
  unfold scan. cbv zeta.
  repeat rewrite keys_when_found. rewrite keys_header_loop.
  repeat rewrite keys_when_found. reflexivity.
Qed.

Lemma subsequence_refl l : subsequence l l.
Proof. induction l as [|x l IH]; cbn; auto. Qed.

Lemma subsequence_skip l x full : subsequence l full -> subsequence l (x :: full).
Proof. destruct l; cbn; auto. Qed.

Lemma subsequence_filter (p : string * list string -> bool) (ev : Evidence) :
  subsequence (map fst (filter p ev)) (map fst ev).
Proof.
  induction ev as [|kv ev IH]; [exact I|]. cbn [filter].
  destruct (p kv); cbn [map].
  - cbn [subsequence]. left. auto.
  - apply subsequence_skip, IH.
Qed.

Lemma subsequence_In l full x : subsequence l full -> In x l -> In x full.
Proof.
  revert l; induction full as [|y full IH]; intros l Hs Hin.
  - destruct l; [destruct Hin|destruct Hs].
  - destruct l as [|z l]; [destruct Hin|]. cbn [subsequence] in Hs.
    destruct Hs as [[-> Hs]|Hs].
    + destruct Hin as [->|Hin]; [left; reflexivity|right; eapply IH; eauto].
    + right. eapply IH; eauto.
Qed.

Lemma subsequence_NoDup l full : subsequence l full -> NoDup full -> NoDup l.
Proof.
  revert l; induction full as [|y full IH]; intros l Hs Hnd.
  - destruct l; [constructor|destruct Hs].
  - destruct l as [|z l]; [constructor|]. cbn [subsequence] in Hs.
    inversion Hnd as [|? ? Hy Hfull]; subst.
    destruct Hs as [[-> Hs]|Hs].
    + constructor; [|apply IH; assumption].
      intros Hin. apply Hy. eapply subsequence_In; eauto.
    + apply IH; assumption.
Qed.

Lemma NoDup_categories : NoDup categories.
Proof.
  unfold categories.
  repeat (constructor;
          [cbn; intros H; repeat (destruct H as [H|H]; [discriminate H|]); exact H|]).
  constructor.
Qed.

(** X6.  The categories of the returned evidence are taken from the eight
    category names, each at most once and in the order html_classes,
    data_attributes, html_comments, headers, javascript_paths, css_paths,
    url_patterns, meta_tags. *)
Theorem X6_evidence_keys (re : Engine) (response : Http.Response) :
  subsequence (keys (evidence_of (detect_aem re response))) categories
  /\ NoDup (keys (evidence_of (detect_aem re response))).
Proof.
  assert (Hs : subsequence (keys (evidence_of (detect_aem re response))) categories).
  { unfold detect_aem, evidence_of, keys. cbn [snd].
    rewrite <- (scan_keys re response). apply subsequence_filter. }
  split; [exact Hs|].
  apply (subsequence_NoDup _ _ Hs), NoDup_categories.
Qed.

(** ** Evidence and confidence go together *)

Lemma extend_has_snippets k xs (ev : Evidence) :
  In k (map fst ev) -> xs <> [] ->
  existsb (fun kv => nonempty (snd kv)) (extend k xs ev) = true.
Proof.
  intros Hin Hxs. induction ev as [|[k' v] ev IH]; [destruct Hin|].
  cbn [extend]. destruct (String.eqb_spec k' k) as [->|Hne]; cbn [existsb snd].
  - destruct v; cbn; [destruct xs; [congruence|reflexivity]|reflexivity].
  - destruct Hin as [E|Hin]; [cbn in E; congruence|].
    rewrite (IH Hin). apply orb_true_r.
Qed.

Lemma tied_found k s q st :
  In k categories -> s <> [] -> 0 < q -> tied st -> tied (found k s q st).
Proof.
  intros Hk Hs Hq [Hc [Hkeys Hiff]]. unfold tied, found. cbn [confidence evidence].
  split; [lra|]. split; [rewrite keys_extend; exact Hkeys|].
  split; intros _; [|lra].
  apply extend_has_snippets; [rewrite Hkeys; exact Hk|exact Hs].
Qed.

Lemma tied_when_found c k s q st :
  In k categories -> (c = true -> s <> []) -> 0 < q -> tied st ->
  tied (when c (found k s q) st).
Proof.
  intros Hk Hs Hq Hst. destruct c; [|exact Hst].
  apply tied_found; auto.
Qed.

Lemma tied_header_loop hs st : tied st -> tied (fold_left header_step hs st).
Proof.
  revert st; induction hs as [|[h v] hs IH]; intros st Hst; cbn [fold_left]; [exact Hst|].
  apply IH. unfold header_step.
  destruct (existsb _ _);
    [apply tied_found; [cbn; tauto|discriminate|reflexivity|exact Hst]|].
  destruct (str_in _ _);
    [apply tied_found; [cbn; tauto|discriminate|reflexivity|exact Hst]|exact Hst].
Qed.

Lemma list_set_nonempty l : nonempty l = true -> list_set l <> [].
Proof.
  destruct l as [|x l]; [discriminate|]. intros _ E.
  assert (Hin : In x (list_set (x :: l))) by (apply nodup_In; left; reflexivity).
  rewrite E in Hin. exact Hin.
Qed.

Lemma list_set_firstn_nonempty n l :
  nonempty l = true -> list_set (firstn (S n) l) <> [].
Proof.
  destruct l as [|x l]; [discriminate|]. intros _. apply list_set_nonempty. reflexivity.
Qed.

Lemma scan_tied re response : tied (scan re response).
Proof.
  unfold scan. cbv zeta.
  repeat (apply tied_when_found;
          [cbn; tauto
          |first [apply list_set_nonempty | apply list_set_firstn_nonempty
                 | intros _; discriminate]
          |reflexivity|]).
  apply tied_header_loop.
  repeat (apply tied_when_found;
          [cbn; tauto
          |first [apply list_set_nonempty | apply list_set_firstn_nonempty
                 | intros _; discriminate]
          |reflexivity|]).
  unfold tied. cbn. split; [compute; discriminate|]. split; [reflexivity|].
  split; [intros H; compute in H; discriminate H|discriminate].
Qed.

Lemma filter_nil_existsb {A} (p : A -> bool) (l : list A) :
  filter p l = [] <-> existsb p l = false.
Proof.
  induction l as [|x l IH]; cbn; [tauto|].
  destruct (p x); cbn; [split; discriminate|exact IH].
Qed.

(** X7.  Evidence and confidence go together: the returned evidence is
    empty exactly when the confidence is zero, so a positive detection
    always comes with at least one category of evidence. *)
Theorem X7_evidence_iff_confidence (re : Engine) (response : Http.Response) :
  (evidence_of (detect_aem re response) = []
   <-> confidence_of (detect_aem re response) == 0)
  /\ (fst (fst (detect_aem re response)) = true ->
      evidence_of (detect_aem re response) <> []).
Proof.
  destruct (scan_tied re response) as [Hc [_ Hiff]].
  assert (Hmin : py_min (confidence (scan re response)) 1.0 == 0
                 <-> confidence (scan re response) == 0).
  { unfold py_min. destruct (Qle_bool (confidence (scan re response)) 1.0) eqn:E.
    - tauto.
    - split; intros H.
      + compute in H. discriminate H.
      + rewrite H in E. compute in E. discriminate E. }
  assert (Hmain : evidence_of (detect_aem re response) = []
                  <-> confidence_of (detect_aem re response) == 0).
  { unfold detect_aem, evidence_of, confidence_of. cbn [fst snd].
    split.
    - intros Hf. apply Hmin. apply filter_nil_existsb in Hf. destruct (Qlt_le_dec 0 (confidence (scan re response))) as [Hp|Hn].
      + apply Hiff in Hp. congruence.
      + apply Qle_antisym; assumption.
    - intros Hz. apply Hmin in Hz. apply filter_nil_existsb.
      apply not_true_is_false. intros E.
      apply Hiff in E. rewrite Hz in E. compute in E. discriminate E. }
  split; [exact Hmain|].
  intros Hdet Hnil. apply Hmain in Hnil.
  unfold detect_aem, confidence_of in *. cbn [fst snd] in *.
  apply Qle_bool_iff in Hdet. rewrite Hnil in Hdet. compute in Hdet. apply Hdet. reflexivity.
Qed.

(** ** Strong signals *)

Lemma bound_when_found L c k s q st :
  0 <= q -> L <= confidence st -> L <= confidence (when c (found k s q) st).
Proof. intros Hq Hst. destruct c; cbn; lra. Qed.

Lemma bound_fired L k s q st :
  L <= q -> 0 <= confidence st -> L <= confidence (when true (found k s q) st).
Proof. intros Hq Hst. cbn. lra. Qed.

Lemma bound_header_loop L hs st :
  L <= confidence st -> L <= confidence (fold_left header_step hs st).
Proof.
  intros Hst. rewrite confidence_header_loop.
  pose proof (header_sum_nonneg hs). lra.
Qed.

Ltac nonneg_steps :=
  repeat (apply nonneg_when_found; [compute; discriminate|]);
  try (apply nonneg_header_loop;
       repeat (apply nonneg_when_found; [compute; discriminate|]));
  compute; discriminate.

Ltac bound_steps :=
  repeat first
    [ apply bound_fired; [compute; discriminate|nonneg_steps]
    | apply bound_when_found; [compute; discriminate|]
    | apply bound_header_loop ].

Lemma scan_strong_body re response :
  nonempty (findall re re_data_attrs no_flags (lower (Http.text response))) = true
  \/ nonempty (findall re (re_clientlib "/etc.clientlibs/" ".js") no_flags
                 (lower (Http.text response))) = true
  \/ nonempty (findall re (re_clientlib "/etc/clientlibs/" ".js") no_flags
                 (lower (Http.text response))) = true
  \/ nonempty (findall re (re_clientlib "/etc.clientlibs/" ".css") no_flags
                 (lower (Http.text response))) = true
  \/ nonempty (findall re (re_clientlib "/etc/clientlibs/" ".css") no_flags
                 (lower (Http.text response))) = true ->
  0.3 <= confidence (scan re response).
Proof.
  unfold scan. cbv zeta.
  intros [H|[H|[H|[H|H]]]]; rewrite H; bound_steps.
Qed.

Lemma dict_set_keeps k v d k' :
  In k' (map fst d) -> In k' (map fst (dict_set k v d)).
Proof.
  induction d as [|[k0 v0] d IH]; [intros []|]. cbn [dict_set].
  destruct (String.eqb k0 k); cbn [map fst]; intros [E|Hin];
    [left; exact E|right; exact Hin|left; exact E|right; apply IH; exact Hin].
Qed.

Lemma dict_set_adds k v d : In k (map fst (dict_set k v d)).
Proof.
  induction d as [|[k0 v0] d IH]; [left; reflexivity|]. cbn [dict_set].
  destruct (String.eqb_spec k0 k) as [->|_]; cbn [map fst];
    [left; reflexivity|right; exact IH].
Qed.

Lemma lower_keys_from items d k :
  In k (map fst d) \/ In k (map (fun kv => lower (fst kv)) items) ->
  In k (map fst (fold_left (fun d kv => dict_set (lower (fst kv)) (snd kv) d) items d)).
Proof.
  revert d; induction items as [|[k0 v0] items IH]; intros d H; cbn [fold_left].
  - destruct H as [H|[]]. exact H.
  - apply IH. cbn [map fst] in H. destruct H as [H|[<-|H]].
    + left. apply dict_set_keeps, H.
    + left. apply dict_set_adds.
    + right. exact H.
Qed.

Lemma header_increment_le_sum hv hs :
  In hv hs -> header_increment hv <= Qsum (map header_increment hs).
Proof.
  induction hs as [|h hs IH]; [intros []|]. cbn [map Qsum fold_right].
  change (fold_right Qplus 0 (map header_increment hs))
    with (Qsum (map header_increment hs)).
  pose proof (header_increment_nonneg h). pose proof (header_sum_nonneg hs).
  intros [->|Hin]; [lra|]. specialize (IH Hin). lra.
Qed.

Lemma scan_strong_header re response k v :
  In (k, v) (Http.headers response) -> platform_header k = true ->
  0.3 <= confidence (scan re response).
Proof.
  intros Hin Hp. rewrite scan_confidence_headers.
  pose proof (scan_nonneg re (without_headers response)) as H0.
  assert (Hk : In (lower k) (map fst (lower_keys (Http.headers response)))).
  { unfold lower_keys. apply lower_keys_from. right.
    apply (in_map (fun kv => lower (fst kv)) _ (k, v)), Hin. }
  apply in_map_iff in Hk. destruct Hk as [[k' v'] [Ek Hin']]. cbn [fst] in Ek. subst k'.
  pose proof (header_increment_le_sum _ _ Hin') as Hle.
  assert (Hinc : header_increment (lower k, v') = 0.3).
  { unfold header_increment. cbn [fst snd existsb].
    unfold platform_header in Hp. rewrite orb_false_r. rewrite Hp. reflexivity. }
  rewrite Hinc in Hle. lra.
Qed.

(** X8.  One strong signal is enough for a detection: a response with a
    header whose name contains x-aem or x-cq (in any case), or whose body
    has a data-cq- attribute or a clientlibs script or stylesheet path
    (as the pattern matcher reports them), is always detected, whatever else
    the response holds. *)
Theorem X8_strong_signal_detected (re : Engine) (response : Http.Response) :
  (exists k v, In (k, v) (Http.headers response) /\ platform_header k = true)
  \/ nonempty (findall re re_data_attrs no_flags (lower (Http.text response))) = true
  \/ nonempty (findall re (re_clientlib "/etc.clientlibs/" ".js") no_flags
                 (lower (Http.text response))) = true
  \/ nonempty (findall re (re_clientlib "/etc/clientlibs/" ".js") no_flags
                 (lower (Http.text response))) = true
  \/ nonempty (findall re (re_clientlib "/etc.clientlibs/" ".css") no_flags
                 (lower (Http.text response))) = true
  \/ nonempty (findall re (re_clientlib "/etc/clientlibs/" ".css") no_flags
                 (lower (Http.text response))) = true ->
  fst (fst (detect_aem re response)) = true
  /\ (0.3 <= confidence_of (detect_aem re response))%Q.
Proof.
  intros H.
  assert (Hc : 0.3 <= confidence (scan re response)).
  { destruct H as [[k [v [Hin Hp]]]|H].
    - eapply scan_strong_header; eauto.
    - apply scan_strong_body, H. }
  assert (Hd : 0.3 <= confidence_of (detect_aem re response)).
  { unfold detect_aem, confidence_of. cbn [fst snd]. unfold py_min.
    destruct (Qle_bool (confidence (scan re response)) 1.0); [exact Hc|].
    compute; discriminate. }
  split; [|exact Hd].
  unfold detect_aem, confidence_of in *. cbn [fst snd] in *.
  apply Qle_bool_iff. exact Hd.
Qed.

Lemma X8_strong_signal_detected_witness :
  fst (fst (detect_aem py_re
              (Http.mkResponse 200 [("X-AEM-Version", "6.5")] "" ""))) = true.
Proof.
  apply (X8_strong_signal_detected py_re
           (Http.mkResponse 200 [("X-AEM-Version", "6.5")] "" "")).
  left. exists "X-AEM-Version"%string, "6.5"%string.
  split; [left; reflexivity|reflexivity].
Defined.

End ScorerMore.

Section ScorerSizes.

Import Scorer Spec.

(** ** Size of the evidence *)

Lemma snippets_extend cat k xs (ev : Evidence) :
  (List.length (snippets cat (extend k xs ev))
   <= List.length (snippets cat ev)
      + (if String.eqb k cat then List.length xs else 0))%nat.
Proof.
  unfold snippets.
  induction ev as [|[k' v] ev IH]; [cbn; lia|]. cbn [extend].
  destruct (String.eqb_spec k' k) as [->|Hne]; cbn [find fst snd].
  - destruct (String.eqb k cat); cbn [snd]; [rewrite length_app|]; lia.
  - destruct (String.eqb k' cat); cbn [snd]; [lia|exact IH].
Qed.

Lemma snippets_when_found cat c k s q st a b :
  (List.length (snippets cat (evidence st)) <= a)%nat ->
  ((if String.eqb k cat then List.length s else 0) <= b)%nat ->
  (List.length (snippets cat (evidence (when c (found k s q) st))) <= a + b)%nat.
Proof.
  intros Ha Hb. destruct c; cbn [when found evidence]; [|lia].
  pose proof (snippets_extend cat k s (evidence st)). lia.
Qed.

Lemma snippets_header_loop cat hs st a :
  String.eqb "headers" cat = false ->
  (List.length (snippets cat (evidence st)) <= a)%nat ->
  (List.length (snippets cat (evidence (fold_left header_step hs st))) <= a)%nat.
Proof.
  intros Hcat. revert st; induction hs as [|[h v] hs IH]; intros st Ha;
    cbn [fold_left]; [exact Ha|].
  apply IH. unfold header_step.
  destruct (existsb _ _); [|destruct (str_in _ _)]; cbn [found evidence];
    try exact Ha;
    match goal with
    | |- context [extend ?k ?xs ?ev] =>
        pose proof (snippets_extend cat k xs ev) as H; rewrite Hcat in H; lia
    end.
Qed.

Lemma length_list_set_firstn n l : (List.length (list_set (firstn n l)) <= n)%nat.
Proof.
  unfold list_set.
  eapply Nat.le_trans; [apply NoDup_incl_length; [apply NoDup_nodup|]|apply firstn_le_length].
  intros x Hx. apply nodup_In in Hx. exact Hx.
Qed.

Lemma snippets_filter cat (ev : Evidence) :
  NoDup (map fst ev) ->
  (List.length (snippets cat (filter (fun kv => nonempty (snd kv)) ev))
   <= List.length (snippets cat ev))%nat.
Proof.
  unfold snippets. induction ev as [|[k v] ev IH]; [cbn; lia|].
  intros Hnd. inversion Hnd as [|? ? Hk Hnd']; subst. cbn [filter snd].
  destruct (nonempty v) eqn:Hv; cbn [find fst snd].
  - destruct (String.eqb k cat); cbn [snd]; [lia|apply IH, Hnd'].
  - destruct (String.eqb_spec k cat) as [->|_]; cbn [snd]; [|apply IH, Hnd'].
    destruct (find _ (filter _ ev)) as [[k' v']|] eqn:Hf; [|cbn; lia].
    exfalso. apply find_some in Hf. destruct Hf as [Hin Hk'].
    cbn [fst] in Hk'. apply String.eqb_eq in Hk'. subst k'.
    apply filter_In in Hin. destruct Hin as [Hin _].
    apply Hk. apply (in_map fst) in Hin. exact Hin.
Qed.

Ltac side_bound :=
  match goal with
  | |- ((if ?e then _ else _) <= _)%nat =>
      let v := eval vm_compute in e in change e with v; cbv iota
  end;
  first [ apply length_list_set_firstn | apply Nat.le_refl ].

Ltac snippet_steps :=
  repeat (eapply snippets_when_found; [|side_bound]);
  eapply snippets_header_loop; [reflexivity|];
  repeat (eapply snippets_when_found; [|side_bound]);
  apply Nat.le_refl.

Lemma scan_javascript re response :
  (List.length (snippets "javascript_paths" (evidence (scan re response))) <= 11)%nat.
Proof.
  unfold scan. cbv zeta.
  eapply Nat.le_trans; [snippet_steps|]. cbn. lia.
Qed.

Lemma scan_css re response :
  (List.length (snippets "css_paths" (evidence (scan re response))) <= 6)%nat.
Proof.
  unfold scan. cbv zeta.
  eapply Nat.le_trans; [snippet_steps|]. cbn. lia.
Qed.

Lemma scan_url_patterns re response :
  (List.length (snippets "url_patterns" (evidence (scan re response))) <= 3)%nat.
Proof.
  unfold scan. cbv zeta.
  eapply Nat.le_trans; [snippet_steps|]. cbn. lia.
Qed.

Lemma scan_comments_meta re response :
  (List.length (snippets "html_comments" (evidence (scan re response))) <= 1)%nat
  /\ (List.length (snippets "meta_tags" (evidence (scan re response))) <= 1)%nat.
Proof.
  unfold scan. cbv zeta.
  split; (eapply Nat.le_trans; [snippet_steps|]); cbn; lia.
Qed.

(** X9.  The evidence kept for a category is bounded where the code limits
    the examples: at most 11 snippets under javascript_paths, 6 under
    css_paths, 3 under url_patterns and one under html_comments and under
    meta_tags, however many matches the body has. *)
Theorem X9_evidence_size_bounds (re : Engine) (response : Http.Response) :
  (List.length (snippets "javascript_paths" (evidence_of (detect_aem re response)))
   <= 11)%nat
  /\ (List.length (snippets "css_paths" (evidence_of (detect_aem re response)))
      <= 6)%nat
  /\ (List.length (snippets "url_patterns" (evidence_of (detect_aem re response)))
      <= 3)%nat
  /\ (List.length (snippets "html_comments" (evidence_of (detect_aem re response)))
      <= 1)%nat
  /\ (List.length (snippets "meta_tags" (evidence_of (detect_aem re response)))
      <= 1)%nat.
Proof.
  assert (Hnd : NoDup (map fst (evidence (scan re response))))
    by (rewrite scan_keys; apply NoDup_categories).
  unfold detect_aem, evidence_of. cbn [snd].
  pose proof (scan_comments_meta re response) as [Hc Hm].
  repeat split;
    (eapply Nat.le_trans; [apply snippets_filter, Hnd|]);
    [apply scan_javascript|apply scan_css|apply scan_url_patterns|exact Hc|exact Hm].
Qed.

End ScorerSizes.

(* ===================================================================== *)
(** * Further properties of the route *)
(* ===================================================================== *)

Section RunMore.

Import Probe Run Spec.

Local Open Scope io_scope.

(** ** The sitemap URL of the request *)

Lemma drop_while_all p l : forallb p l = true -> drop_while p l = [].
Proof.
  induction l as [|c l IH]; [reflexivity|]. cbn [forallb drop_while].
  intros H. apply andb_true_iff in H. destruct H as [-> H]. apply IH, H.
Qed.

Lemma drop_while_nil p l : drop_while p l = [] -> forallb p l = true.
Proof.
  induction l as [|c l IH]; [reflexivity|]. cbn [forallb drop_while].
  destruct (p c); [exact IH|discriminate].
Qed.

Lemma drop_while_head p l c l' : drop_while p l = c :: l' -> p c = false.
Proof.
  induction l as [|x l IH]; [discriminate|]. cbn [drop_while].
  destruct (p x) eqn:E; [exact IH|]. intros H; inversion H; subst. exact E.
Qed.

Lemma blank_forallb s : blank s = forallb isspace (list_ascii_of_string s).
Proof. induction s as [|c s IH]; cbn; [reflexivity|rewrite IH; reflexivity]. Qed.

Lemma strip_blank s : truthy (strip s) = negb (blank s).
Proof.
  unfold strip, strip_with. rewrite blank_forallb.
  destruct (drop_while isspace (list_ascii_of_string s)) as [|c l] eqn:E.
  - rewrite (drop_while_nil _ _ E). reflexivity.
  - assert (Hb : forallb isspace (list_ascii_of_string s) = false).
    { apply not_true_is_false. intros H. rewrite (drop_while_all _ _ H) in E. discriminate. }
    rewrite Hb. cbn [negb].
    pose proof (drop_while_head _ _ _ _ E) as Hc.
    destruct (drop_while isspace (rev (c :: l))) as [|c' l'] eqn:E'.
    + apply drop_while_nil in E'. rewrite forallb_forall in E'.
      assert (Hin : In c (rev (c :: l))) by (apply in_rev; rewrite rev_involutive; left; reflexivity).
      rewrite (E' c Hin) in Hc. discriminate.
    + destruct (rev (c' :: l')) as [|x r] eqn:Er.
      * apply (f_equal (@rev ascii)) in Er. rewrite rev_involutive in Er. discriminate.
      * reflexivity.
Qed.

(** The route on a body with a string under [sitemap_url]. *)
Lemma test_sitemap_string (env : Env) (d : list (string * json)) (u : string) :
  json_get (JDict d) "sitemap_url" (JStr "") = Ok (JStr u) ->
  if blank u
  then test_sitemap env (JDict d)
       = (Ok (ErrorReply "Please provide a sitemap URL" 400), [])
  else exists reply rest,
         test_sitemap env (JDict d) = (Ok reply, EvParseSitemap (strip u) :: rest).
Proof.
  intros Hu.
  set (request := mkRequest (Some u)
          (Some (json_truthy
                   (match find (fun kv => String.eqb (fst kv) "check_aem") d with
                    | Some kv => snd kv
                    | None => JBool true
                    end))) None None None).
  assert (E : test_sitemap env (JDict d) = test_sitemap env request).
  { rewrite test_sitemap_request. cbn [request sitemap_url check_aem].
    unfold test_sitemap. rewrite Hu. cbn [json_get bind json_strip].
    rewrite iobind_lift_ok. cbv beta. rewrite iobind_lift_ok. reflexivity. }
  rewrite E. pose proof (strip_blank u) as Hs.
  destruct (test_sitemap_cases env request) as [[Hf E']|[Ht [reply [rest [E' _]]]]];
    cbv zeta in *; cbn [request sitemap_url] in *.
  - rewrite Hf in Hs. destruct (blank u); [exact E'|discriminate].
  - rewrite Ht in Hs. destruct (blank u); [discriminate|]. eauto.
Qed.

(** X10.  What the route does with the sitemap URL of the request.  The
    body is read before the [try] of the route.  When the body is not a
    JSON object, or when its sitemap URL is not a string (null, a number),
    the read raises an AttributeError that the route does not catch, and
    nothing is fetched: a null body and a null sitemap URL are two such
    requests.  When the sitemap URL is left out or is a string of white
    space only, the answer is 400 "Please provide a sitemap URL" and
    nothing is fetched.  Otherwise the route answers, and the first thing
    it does is to fetch the sitemap at the stripped URL. *)
Theorem X10_blank_sitemap_url (env : Env) :
  (forall data : json,
     match data with
     | JDict d =>
         match find (fun kv => String.eqb (fst kv) "sitemap_url") d with
         | Some (_, JStr u) =>
             if blank u
             then test_sitemap env data
                  = (Ok (ErrorReply "Please provide a sitemap URL" 400), [])
             else exists reply rest,
                    test_sitemap env data
                    = (Ok reply, EvParseSitemap (strip u) :: rest)
         | Some (_, v) =>
             test_sitemap env data
             = (Raise (AttributeError
                         ("'" ++ type_name v ++ "' object has no attribute 'strip'")),
                [])
         | None =>
             test_sitemap env data
             = (Ok (ErrorReply "Please provide a sitemap URL" 400), [])
         end
     | _ =>
         test_sitemap env data
         = (Raise (AttributeError
                     ("'" ++ type_name data ++ "' object has no attribute 'get'")),
            [])
     end)
  /\ test_sitemap env JNull
     = (Raise (AttributeError "'NoneType' object has no attribute 'get'"), [])
  /\ test_sitemap env (JDict [("sitemap_url", JNull); ("check_aem", JBool true)])
     = (Raise (AttributeError "'NoneType' object has no attribute 'strip'"), [])
  /\ test_sitemap env (JDict [("check_aem", JBool false)])
     = (Ok (ErrorReply "Please provide a sitemap URL" 400), []).
Proof.
  split; [|repeat split; reflexivity].
  intros data. destruct data as [| | | | |l|d]; try reflexivity.
  pose proof (test_sitemap_string env d) as Hstr. cbn [json_get] in Hstr.
  destruct (find (fun kv => String.eqb (fst kv) "sitemap_url") d) as [[k v]|] eqn:Hfind.
  - cbn [snd] in Hstr.
    destruct v; try (unfold test_sitemap; cbn [json_get]; rewrite Hfind; reflexivity).
    apply Hstr. reflexivity.
  - apply (Hstr ""). reflexivity.
Qed.

(** ** Failures before any probe *)

(** X11.  A failure of the sitemap resolver and an empty sitemap end the
    run before any probe: the resolver's exception gives 500 with the
    message of the exception, an empty URL list gives 400 "No URLs found
    in sitemap", and in both cases the only event is the sitemap fetch.
    A non-empty sitemap always gives a summary. *)
Theorem X11_upstream_failure (env : Env) (data : Request) :
  let u := strip (match sitemap_url data with Some u => u | None => "" end) in
  truthy u = true ->
  match parse_sitemap env u with
  | Raise e =>
      test_sitemap env data
      = (Ok (ErrorReply (str_of_exn e) 500), [EvParseSitemap u])
  | Ok [] =>
      test_sitemap env data
      = (Ok (ErrorReply "No URLs found in sitemap" 400), [EvParseSitemap u])
  | Ok (_ :: _) =>
      exists summary results trace,
        test_sitemap env data
        = (Ok (Success summary results (now env)), EvParseSitemap u :: trace)
  end.
Proof.
  cbv zeta. intros Ht. rewrite test_sitemap_request. cbv zeta. rewrite Ht. cbn [negb].
  rewrite iobind_emit. unfold catch_500.
  destruct (parse_sitemap env _) as [[|u0 urls]|e].
  - reflexivity.
  - unfold lift, iobind at 1. cbn [Scorer.nonempty negb].
    match goal with
    | |- context [process_batches ?env ?b ?d ?c ?l] =>
        destruct (process_batches_trace env b d c l eq_refl) as [results ->]
    end.
    unfold iobind, lift, ret.
    destruct (summarize_total results) as [s ->]. cbn [fst snd app].
    eexists. eexists. eexists. reflexivity.
  - reflexivity.
Qed.

Lemma X11_upstream_failure_witness :
  test_sitemap
    (mkEnv (fun _ => Raise (OtherException "Error parsing sitemap: timed out"))
           (fun _ => Raise (OtherException "unreachable")) py_re (fun l => l) "")
    (mkRequest (Some " https://example.com/sitemap.xml ") None None None None)
  = (Ok (ErrorReply "Error parsing sitemap: timed out" 500),
     [EvParseSitemap "https://example.com/sitemap.xml"]).
Proof.
  apply (X11_upstream_failure
           (mkEnv (fun _ => Raise (OtherException "Error parsing sitemap: timed out"))
                  (fun _ => Raise (OtherException "unreachable")) py_re (fun l => l) "")
           (mkRequest (Some " https://example.com/sitemap.xml ") None None None None)).
  reflexivity.
Defined.

(** ** The results of a run *)

Lemma batch_loop_results env size delay chk urls starts acc :
  for_each starts (batch_step env size delay chk urls) acc
  = (Ok (acc ++ flat_map
                  (fun i => map (fun u => probe (get env) (re env) u chk)
                                (as_completed env (slice urls i (i + size))))
                  starts),
     flat_map (turn_events size delay urls) starts).
Proof.
  revert acc; induction starts as [|i starts IH]; intros acc; cbn [for_each flat_map].
  - rewrite app_nil_r. reflexivity.
  - rewrite batch_step_eq. unfold iobind. rewrite IH. rewrite <- app_assoc. reflexivity.
Qed.

(** The groups of a list for a batch size. *)
Lemma process_batches_results env size delay chk urls :
  (0 < size)%Z ->
  let groups :=
    map (chunk (Z.to_nat size) urls)
        (seq 0 (Z.to_nat ((Z.of_nat (List.length urls) + size - 1) / size))) in
  process_batches env size delay chk urls
  = (Ok (flat_map (fun g => map (fun u => probe (get env) (re env) u chk)
                                (as_completed env g)) groups),
     intersperse (EvSleep delay) (map EvBatch groups))
  /\ concat groups = urls.
Proof.
  intros Hb. cbv zeta.
  destruct (process_batches_trace env size delay chk urls Hb) as [results Htr].
  set (n := Z.of_nat (List.length urls)) in *.
  set (K := Z.to_nat ((n + size - 1) / size)) in *.
  destruct (ceil_bounds n size ltac:(lia) Hb) as [HK0 [HKlo HKhi]].
  split.
  - rewrite Htr. f_equal. f_equal.
    unfold process_batches in Htr. rewrite range_from_zero in Htr by lia.
    fold n K in Htr. unfold lift, iobind at 1 in Htr.
    rewrite batch_loop_results in Htr. cbn [app] in Htr.
    inversion Htr as [[Hres Hev]]. clear Htr Hev.
    rewrite !flat_map_concat_map, !map_map. f_equal. apply map_ext_in.
    intros k Hk. apply in_seq in Hk.
    assert (HKz : Z.of_nat K = ((n + size - 1) / size)%Z) by (subst K; lia).
    assert (Hkb : (Z.of_nat k * size <= n)%Z).
    { assert (Hk1 : (Z.of_nat k <= (n + size - 1) / size - 1)%Z) by lia.
      apply (Z.mul_le_mono_nonneg_r _ _ size) in Hk1; lia. }
    rewrite slice_chunk by (try exact Hb; exact Hkb). reflexivity.
  - assert (HKz : Z.of_nat K = ((n + size - 1) / size)%Z) by (subst K; lia).
    rewrite concat_chunks. apply firstn_all2. fold K.
    apply Nat2Z.inj_le. rewrite Nat2Z.inj_mul, HKz, Z2Nat.id by lia. exact HKhi.
Qed.

Lemma slice_firstn {A} (l : list A) (n : Z) :
  (0 <= n)%Z -> slice l 0 n = firstn (Z.to_nat n) l.
Proof.
  intros Hn. unfold slice, clamp. cbn [Z.ltb Z.compare].
  destruct (Z.ltb_spec n 0); [lia|].
  rewrite (Z.min_l 0) by lia. cbn [Z.to_nat skipn]. rewrite Nat.sub_0_r.
  destruct (Z.le_ge_cases n (Z.of_nat (List.length l))).
  - rewrite Z.min_l by lia. reflexivity.
  - rewrite Z.min_r by lia. rewrite Nat2Z.id.
    rewrite !firstn_all2; [reflexivity|lia|lia].
Qed.

Lemma kept_urls (urls : list string) :
  (if (Z.of_nat (List.length urls) >? 100)%Z then slice urls 0 100 else urls)
  = kept urls.
Proof.
  unfold kept. destruct (Z.gtb_spec (Z.of_nat (List.length urls)) 100).
  - apply (slice_firstn urls 100). lia.
  - symmetry. apply firstn_all2. lia.
Qed.

Lemma group_sizes {A} (size : Z) (l : list A) (g : list A) :
  (0 < size)%Z ->
  In g (map (chunk (Z.to_nat size) l)
            (seq 0 (Z.to_nat ((Z.of_nat (List.length l) + size - 1) / size)))) ->
  (1 <= List.length g)%nat /\ (Z.of_nat (List.length g) <= size)%Z.
Proof.
  intros Hb Hin. apply in_map_iff in Hin. destruct Hin as [k [<- Hk]].
  apply in_seq in Hk.
  destruct (ceil_bounds (Z.of_nat (List.length l)) size ltac:(lia) Hb) as [HK0 [HKlo HKhi]].
  assert (Hk1 : (Z.of_nat k <= (Z.of_nat (List.length l) + size - 1) / size - 1)%Z) by lia.
  apply (Z.mul_le_mono_nonneg_r _ _ size) in Hk1; [|lia].
  rewrite length_chunk. split; [|lia].
  assert (Z.of_nat (k * Z.to_nat size) < Z.of_nat (List.length l))%Z
    by (rewrite Nat2Z.inj_mul, Z2Nat.id by lia; lia).
  lia.
Qed.

Lemma summarize_total_urls results s :
  summarize results = Ok s -> total_urls s = Z.of_nat (List.length results).
Proof.
  unfold summarize. cbv zeta.
  match goal with
  | |- context [(?ct >? 0)%Z] => destruct (ct >? 0)%Z
  end.
  - unfold truediv.
    match goal with
    | |- context [(?ct =? 0)%Z] => destruct (ct =? 0)%Z
    end; cbn [bind]; intros H; inversion H; reflexivity.
  - cbn [bind]. intros H; inversion H; reflexivity.
Qed.

(** A successful run, spelled out. *)
Lemma test_sitemap_success env (data : Request) u0 urls :
  let u := strip (match sitemap_url data with Some u => u | None => "" end) in
  let chk := match check_aem data with Some b => b | None => true end in
  truthy u = true ->
  parse_sitemap env u = Ok (u0 :: urls) ->
  exists summary groups,
    test_sitemap env data
    = (Ok (Success summary
             (flat_map (fun g => map (fun x => probe (get env) (re env) x chk)
                                     (as_completed env g)) groups)
             (now env)),
       EvParseSitemap u :: intersperse (EvSleep BATCH_DELAY) (map EvBatch groups))
    /\ concat groups = kept (u0 :: urls)
    /\ Forall (fun g => (1 <= List.length g <= 3)%nat) groups
    /\ summarize (flat_map (fun g => map (fun x => probe (get env) (re env) x chk)
                                         (as_completed env g)) groups)
       = Ok summary.
Proof.
  cbv zeta. intros Ht Hp. rewrite test_sitemap_request. cbv zeta. rewrite Ht. cbn [negb].
  rewrite iobind_emit. unfold catch_500. rewrite Hp.
  unfold lift, iobind, ret. cbn [Scorer.nonempty negb]. cbv zeta.
  rewrite kept_urls.
  destruct (process_batches_results env URL_BATCH_SIZE BATCH_DELAY
              (match check_aem data with Some b => b | None => true end)
              (kept (u0 :: urls)) eq_refl) as [Hpb Hcat].
  cbv zeta in Hpb. rewrite Hpb.
  match goal with
  | |- context [summarize ?rs] => destruct (summarize_total rs) as [s Hs]; rewrite Hs
  end.
  cbn [fst snd]. rewrite app_nil_r.
  eexists. eexists. split; [reflexivity|]. split; [exact Hcat|]. split; [|exact Hs].
  apply Forall_forall. intros g Hg.
  destruct (group_sizes URL_BATCH_SIZE (kept (u0 :: urls)) g eq_refl Hg) as [H1 H3].
  unfold URL_BATCH_SIZE in H3. lia.
Qed.

(** X12.  A run over a non-empty sitemap probes the first hundred URLs of
    the sitemap and no other: the groups submitted, read in order, are
    these URLs in sitemap order, each group has one to three URLs, and the
    results are the probes of the groups, group after group, each group in
    the order its probes completed.  The summary counts every result. *)
Theorem X12_first_hundred_in_order (env : Env) (data : Request) (u0 : string)
        (urls : list string) :
  let u := strip (match sitemap_url data with Some u => u | None => "" end) in
  truthy u = true ->
  parse_sitemap env u = Ok (u0 :: urls) ->
  exists summary results trace,
    test_sitemap env data
    = (Ok (Success summary results (now env)), EvParseSitemap u :: trace)
    /\ concat (batches_of trace) = firstn 100 (u0 :: urls)
    /\ Forall (fun g => (1 <= List.length g <= 3)%nat) (batches_of trace)
    /\ results
       = flat_map (fun g => map (fun x => probe (get env) (re env) x
                                            (match check_aem data with
                                             | Some b => b | None => true end))
                                (as_completed env g))
                  (batches_of trace)
    /\ total_urls summary = Z.of_nat (List.length results).
Proof.
  cbv zeta. intros Ht Hp.
  destruct (test_sitemap_success env data u0 urls Ht Hp)
    as [s [groups [E [Hcat [Hsz Hs]]]]].
  eexists. eexists. eexists. split; [exact E|].
  rewrite batches_of_intersperse. split; [exact Hcat|]. split; [exact Hsz|].
  split; [reflexivity|]. apply summarize_total_urls, Hs.
Qed.

Lemma X12_first_hundred_in_order_witness :
  exists summary results trace,
    test_sitemap one_page_env invalid_batch_size_request
    = (Ok (Success summary results (now one_page_env)),
       EvParseSitemap "https://example.com/sitemap.xml" :: trace)
    /\ concat (batches_of trace) = ["https://example.com/page1"].
Proof.
  destruct (X12_first_hundred_in_order one_page_env invalid_batch_size_request
              "https://example.com/page1" [] eq_refl eq_refl)
    as [s [rs [tr [E [Hcat _]]]]].
  exists s, rs, tr. split; [exact E|exact Hcat].
Defined.

Lemma Permutation_flat_map {A B} (f g : A -> list B) (l : list A) :
  (forall x, Permutation (f x) (g x)) -> Permutation (flat_map f l) (flat_map g l).
Proof.
  intros H. induction l as [|x l IH]; cbn [flat_map]; [constructor|].
  apply Permutation_app; [apply H|exact IH].
Qed.

(** X13.  When every probe of a group completes exactly once (the
    completion order is a permutation of the group), the results are the
    probes of the first hundred URLs up to order, and the summary counts
    min(n, 100) URLs. *)
Theorem X13_one_result_per_url (env : Env) (data : Request) (u0 : string)
        (urls : list string) :
  let u := strip (match sitemap_url data with Some u => u | None => "" end) in
  let chk := match check_aem data with Some b => b | None => true end in
  (forall g, Permutation (as_completed env g) g) ->
  truthy u = true ->
  parse_sitemap env u = Ok (u0 :: urls) ->
  exists summary results trace,
    test_sitemap env data = (Ok (Success summary results (now env)), trace)
    /\ Permutation results
         (map (fun x => probe (get env) (re env) x chk) (firstn 100 (u0 :: urls)))
    /\ total_urls summary = Z.of_nat (Nat.min 100 (List.length (u0 :: urls))).
Proof.
  cbv zeta. intros Hperm Ht Hp.
  destruct (test_sitemap_success env data u0 urls Ht Hp)
    as [s [groups [E [Hcat [Hsz Hs]]]]].
  eexists. eexists. eexists. split; [exact E|].
  assert (HP : Permutation
                 (flat_map (fun g => map (fun x => probe (get env) (re env) x
                                     (match check_aem data with
                                      | Some b => b | None => true end))
                                     (as_completed env g)) groups)
                 (map (fun x => probe (get env) (re env) x
                                  (match check_aem data with
                                   | Some b => b | None => true end))
                      (firstn 100 (u0 :: urls)))).
  { change (firstn 100 (u0 :: urls)) with (kept (u0 :: urls)).
    rewrite <- Hcat, concat_map, <- flat_map_concat_map.
    apply Permutation_flat_map. intros g. apply Permutation_map, Hperm. }
  split; [exact HP|].
  rewrite (summarize_total_urls _ _ Hs), (Permutation_length HP), length_map, length_firstn.
  reflexivity.
Qed.

Lemma X13_one_result_per_url_witness :
  exists summary results trace,
    test_sitemap one_page_env (mkRequest (Some "https://example.com/sitemap.xml")
                                         None None None None)
    = (Ok (Success summary results (now one_page_env)), trace)
    /\ total_urls summary = 1%Z.
Proof.
  destruct (X13_one_result_per_url one_page_env
              (mkRequest (Some "https://example.com/sitemap.xml") None None None None)
              "https://example.com/page1" [])
    as [s [rs [tr [E [_ Ht]]]]];
    [intros g; apply Permutation_refl | reflexivity | reflexivity |].
  exists s, rs, tr. split; [exact E|exact Ht].
Defined.

(** The two fatal outcomes of the sitemap step. *)
Lemma sitemap_step_fatal (env : Env) (data : Request) :
  let u := strip (match sitemap_url data with Some u => u | None => "" end) in
  truthy u = true ->
  match parse_sitemap env u with
  | Raise e =>
      test_sitemap env data
      = (Ok (ErrorReply (str_of_exn e) 500), [EvParseSitemap u])
  | Ok [] =>
      test_sitemap env data
      = (Ok (ErrorReply "No URLs found in sitemap" 400), [EvParseSitemap u])
  | Ok (_ :: _) => True
  end.
Proof.
  cbv zeta. intros Ht. rewrite test_sitemap_request. cbv zeta. rewrite Ht. cbn [negb].
  rewrite iobind_emit. unfold catch_500.
  destruct (parse_sitemap env _) as [[|u0 urls]|e]; [reflexivity|exact I|reflexivity].
Qed.

(** ** The counters of the summary *)

Lemma summarize_fields results s :
  summarize results = Ok s ->
  total_urls s = Z.of_nat (List.length results)
  /\ cache_hits s = count (fun r => str_in "HIT" (cache_hit r)) results
  /\ cache_misses s = count (fun r => str_in "MISS" (cache_hit r)) results
  /\ confirmed_hits s
     = count (fun r => in_list (cache_hit r) ["HIT"; "REFRESH_HIT"]) results
  /\ inferred_hits s
     = count (fun r => String.eqb (cache_hit r) "HIT (inferred from timing)") results
  /\ confirmed_misses s
     = count (fun r => in_list (cache_hit r) ["MISS"; "REFRESH_MISS"]) results
  /\ inferred_misses s
     = count (fun r => String.eqb (cache_hit r) "MISS (inferred from timing)") results
  /\ not_cacheable s
     = count (fun r => String.eqb (cache_hit r) "NOT_CACHEABLE") results
  /\ errors s = count (fun r => String.eqb (cache_hit r) "ERROR") results
  /\ unknown s = count (fun r => str_in "UNKNOWN" (cache_hit r)) results
  /\ total_aem_detected s
     = count (fun r => match is_aem r with Some b => b | None => false end) results.
Proof.
  unfold summarize. cbv zeta.
  match goal with
  | |- context [(?ct >? 0)%Z] => destruct (ct >? 0)%Z
  end.
  - unfold truediv.
    match goal with
    | |- context [(?ct =? 0)%Z] => destruct (ct =? 0)%Z
    end; cbn [bind]; intros H; inversion H; cbn; repeat split; reflexivity.
  - cbn [bind]. intros H; inversion H; cbn; repeat split; reflexivity.
Qed.

Lemma count_cons {A} (p : A -> bool) (x : A) (l : list A) :
  count p (x :: l) = ((if p x then 1 else 0) + count p l)%Z.
Proof. unfold count. cbn [filter]. destruct (p x); cbn [List.length]; lia. Qed.

(** Each verdict the probe can produce falls under exactly one of the
    five counters. *)
Lemma verdict_counted_once v :
  In v Classifier.verdicts \/ v = "ERROR" ->
  ((if str_in "HIT" v then 1 else 0) + (if str_in "MISS" v then 1 else 0)
   + (if String.eqb v "NOT_CACHEABLE" then 1 else 0)
   + (if String.eqb v "ERROR" then 1 else 0)
   + (if str_in "UNKNOWN" v then 1 else 0) = 1)%Z
  /\ ((if str_in "HIT" v then 1 else 0)
      = (if in_list v ["HIT"; "REFRESH_HIT"] then 1 else 0)
        + (if String.eqb v "HIT (inferred from timing)" then 1 else 0))%Z
  /\ ((if str_in "MISS" v then 1 else 0)
      = (if in_list v ["MISS"; "REFRESH_MISS"] then 1 else 0)
        + (if String.eqb v "MISS (inferred from timing)" then 1 else 0))%Z.
Proof.
  unfold Classifier.verdicts. cbn [In].
  intros [H|H]; [|subst v; vm_compute; repeat split; reflexivity].
  repeat (destruct H as [H|H]; [subst v; vm_compute; repeat split; reflexivity|]).
  destruct H.
Qed.

Lemma counters_partition results :
  Forall probe_verdict results ->
  (Z.of_nat (List.length results)
   = count (fun r => str_in "HIT" (cache_hit r)) results
     + count (fun r => str_in "MISS" (cache_hit r)) results
     + count (fun r => String.eqb (cache_hit r) "NOT_CACHEABLE") results
     + count (fun r => String.eqb (cache_hit r) "ERROR") results
     + count (fun r => str_in "UNKNOWN" (cache_hit r)) results)%Z
  /\ (count (fun r => str_in "HIT" (cache_hit r)) results
      = count (fun r => in_list (cache_hit r) ["HIT"; "REFRESH_HIT"]) results
        + count (fun r => String.eqb (cache_hit r) "HIT (inferred from timing)") results)%Z
  /\ (count (fun r => str_in "MISS" (cache_hit r)) results
      = count (fun r => in_list (cache_hit r) ["MISS"; "REFRESH_MISS"]) results
        + count (fun r => String.eqb (cache_hit r) "MISS (inferred from timing)") results)%Z.
Proof.
  induction 1 as [|r results Hr _ IH].
  - repeat split; reflexivity.
  - rewrite !count_cons. cbn [List.length].
    destruct (verdict_counted_once (cache_hit r) Hr) as [H1 [H2 H3]].
    destruct IH as [I1 [I2 I3]]. repeat split; lia.
Qed.

Lemma probe_has_verdict get re url chk : probe_verdict (probe get re url chk).
Proof.
  unfold probe_verdict, probe.
  pose proof (check_akamai_cache_cases get re url chk) as H.
  destruct (get url).
  - destruct H as [r [-> [_ [_ [Hv _]]]]]. left. exact Hv.
  - rewrite H. right. reflexivity.
Qed.

Lemma route_results_verdicts env chk (groups : list (list string)) :
  Forall probe_verdict
    (flat_map (fun g => map (fun x => probe (get env) (re env) x chk)
                            (as_completed env g)) groups).
Proof.
  apply Forall_forall. intros r Hin. apply in_flat_map in Hin.
  destruct Hin as [g [_ Hin]]. apply in_map_iff in Hin.
  destruct Hin as [x [<- _]]. apply probe_has_verdict.
Qed.

(** Where a summary comes from: the probes of the groups of a run. *)
Lemma success_inversion env (data : Request) summary results ts tr :
  test_sitemap env data = (Ok (Success summary results ts), tr) ->
  exists groups,
    results
    = flat_map (fun g => map (fun x => probe (get env) (re env) x
                                         (match check_aem data with
                                          | Some b => b | None => true end))
                             (as_completed env g)) groups
    /\ summarize results = Ok summary.
Proof.
  intros E.
  destruct (truthy (strip (match sitemap_url data with Some u => u | None => "" end)))
    eqn:Ht.
  - pose proof (sitemap_step_fatal env data Ht) as H.
    destruct (parse_sitemap env _) as [[|u0 urls]|e] eqn:Hp.
    + rewrite H in E. discriminate E.
    + clear H. destruct (test_sitemap_success env data u0 urls Ht Hp)
        as [s [groups [E' [_ [_ Hs]]]]].
      rewrite E' in E. inversion E; subst. exists groups. split; [reflexivity|exact Hs].
    + rewrite H in E. discriminate E.
  - destruct (test_sitemap_cases env data) as [[_ E']|[Ht' _]]; cbv zeta in *.
    + rewrite E' in E. discriminate E.
    + congruence.
Qed.

(** X14.  In every summary the route returns, the counters partition the
    results: every result is counted under exactly one of hits, misses,
    not cacheable, errors and unknown, the hits are the confirmed plus the
    inferred hits, and the misses the confirmed plus the inferred
    misses. *)
Theorem X14_counters_partition (env : Env) (data : Request) (summary : Summary)
        (results : list ProbeResult) (ts : string) (tr : list event) :
  test_sitemap env data = (Ok (Success summary results ts), tr) ->
  (total_urls summary
   = cache_hits summary + cache_misses summary + not_cacheable summary
     + errors summary + unknown summary)%Z
  /\ (cache_hits summary = confirmed_hits summary + inferred_hits summary)%Z
  /\ (cache_misses summary = confirmed_misses summary + inferred_misses summary)%Z.
Proof.
  intros E. destruct (success_inversion _ _ _ _ _ _ E) as [groups [Hr Hs]].
  pose proof (route_results_verdicts env
                (match check_aem data with Some b => b | None => true end) groups) as Hv.
  rewrite <- Hr in Hv.
  destruct (summarize_fields _ _ Hs)
    as [Ht [Hh [Hm [Hch [Hih [Hcm [Him [Hn [He [Hu _]]]]]]]]]].
  destruct (counters_partition results Hv) as [P1 [P2 P3]].
  rewrite Ht, Hh, Hm, Hch, Hih, Hcm, Him, Hn, He, Hu. auto.
Qed.

Lemma X14_counters_partition_witness :
  exists summary results ts tr,
    test_sitemap one_page_env invalid_batch_size_request
    = (Ok (Success summary results ts), tr)
    /\ (total_urls summary
        = cache_hits summary + cache_misses summary + not_cacheable summary
          + errors summary + unknown summary)%Z.
Proof.
  destruct (test_sitemap_success one_page_env invalid_batch_size_request
              "https://example.com/page1" [] eq_refl eq_refl)
    as [s [groups [E _]]].
  eexists. eexists. eexists. eexists. split; [exact E|].
  exact (proj1 (X14_counters_partition _ _ _ _ _ _ E)).
Defined.

Lemma probe_without_check get re url :
  is_aem (probe get re url false) = None
  /\ aem_confidence (probe get re url false) = None
  /\ aem_evidence (probe get re url false) = None.
Proof.
  unfold probe, check_akamai_cache, try_except.
  destruct (get url) as [response|e]; cbn [bind]; [|cbn; auto].
  rewrite determine_cache_hit_ladder. cbn [bind].
  match goal with
  | |- context [Classifier.ladder_verdict ?s] =>
      destruct (Classifier.ladder_verdict s) as [v t]
  end.
  cbn. auto.
Qed.

Lemma count_none {A} (p : A -> bool) (l : list A) :
  Forall (fun x => p x = false) l -> count p l = 0%Z.
Proof.
  induction 1 as [|x l Hx _ IH]; [reflexivity|].
  rewrite count_cons, Hx, IH. reflexivity.
Qed.

(** X16.  When the request turns the platform check off, no result of
    the run carries a platform-detection entry and the summary counts no
    detected page. *)
Theorem X16_no_detection_when_disabled (env : Env) (data : Request)
        (summary : Summary) (results : list ProbeResult) (ts : string)
        (tr : list event) :
  check_aem data = Some false ->
  test_sitemap env data = (Ok (Success summary results ts), tr) ->
  total_aem_detected summary = 0%Z
  /\ Forall (fun r => is_aem r = None /\ aem_confidence r = None
                      /\ aem_evidence r = None) results.
Proof.
  intros Hc E. destruct (success_inversion _ _ _ _ _ _ E) as [groups [Hr Hs]].
  rewrite Hc in Hr.
  assert (Hall : Forall (fun r => is_aem r = None /\ aem_confidence r = None
                                  /\ aem_evidence r = None) results).
  { rewrite Hr. apply Forall_forall. intros r Hin. apply in_flat_map in Hin.
    destruct Hin as [g [_ Hin]]. apply in_map_iff in Hin.
    destruct Hin as [x [<- _]]. apply probe_without_check. }
  split; [|exact Hall].
  destruct (summarize_fields _ _ Hs) as [_ [_ [_ [_ [_ [_ [_ [_ [_ [_ Ha]]]]]]]]]].
  rewrite Ha. apply count_none.
  eapply Forall_impl; [|exact Hall]. intros r [-> _]. reflexivity.
Qed.

Lemma X16_no_detection_when_disabled_witness :
  exists summary results ts tr,
    test_sitemap one_page_env
      (mkRequest (Some "https://example.com/sitemap.xml") (Some false) None None None)
    = (Ok (Success summary results ts), tr)
    /\ total_aem_detected summary = 0%Z.
Proof.
  destruct (test_sitemap_success one_page_env
              (mkRequest (Some "https://example.com/sitemap.xml") (Some false)
                         None None None)
              "https://example.com/page1" [] eq_refl eq_refl)
    as [s [groups [E _]]].
  eexists. eexists. eexists. eexists. split; [exact E|].
  exact (proj1 (X16_no_detection_when_disabled one_page_env
                  (mkRequest (Some "https://example.com/sitemap.xml") (Some false)
                             None None None)
                  _ _ _ _ eq_refl E)).
Defined.

(** ** Range of the hit ratio *)

Lemma hit_excludes v :
  ((if str_in "HIT" v then 1 else 0)
   + (if String.eqb v "NOT_CACHEABLE" then 1 else 0)
   + (if String.eqb v "ERROR" then 1 else 0) <= 1)%Z.
Proof.
  destruct (String.eqb_spec v "NOT_CACHEABLE") as [->|_]; [vm_compute; discriminate|].
  destruct (String.eqb_spec v "ERROR") as [->|_]; [vm_compute; discriminate|].
  destruct (str_in "HIT" v); lia.
Qed.

Lemma hits_among_cacheable (results : list ProbeResult) :
  (count (fun r => str_in "HIT" (cache_hit r)) results
   <= Z.of_nat (List.length results)
      - count (fun r => String.eqb (cache_hit r) "NOT_CACHEABLE") results
      - count (fun r => String.eqb (cache_hit r) "ERROR") results)%Z.
Proof.
  induction results as [|r results IH]; [reflexivity|].
  rewrite !count_cons. cbn [List.length].
  pose proof (hit_excludes (cache_hit r)). lia.
Qed.

Lemma round_half_even_range (y : Q) (n : Z) :
  (0 <= y)%Q -> (y <= inject_Z n)%Q ->
  (0 <= round_half_even y <= n)%Z.
Proof.
  intros H0 Hn. pose proof (round_half_even_close y) as Hc.
  apply Qabs_Qle_condition in Hc. destruct Hc as [Hlo Hhi].
  split.
  - assert (H : (inject_Z (-1) < inject_Z (round_half_even y))%Q)
      by (change (inject_Z (-1)) with (-1)%Q; lra).
    rewrite <- Zlt_Qlt in H. lia.
  - assert (H : (inject_Z (round_half_even y) < inject_Z (n + 1))%Q)
      by (rewrite inject_Z_plus; change (inject_Z 1) with 1%Q; lra).
    rewrite <- Zlt_Qlt in H. lia.
Qed.

(** X15.  For any list of results, whatever their verdict strings: a
    result counted as a hit is never counted as not cacheable or as an
    error, so the hits are at most the cacheable total, and the hit ratio
    is the integer 0 or a number between 0 and 100. *)
Theorem X15_hit_ratio_range (results : list ProbeResult) (s : Summary) :
  summarize results = Ok s ->
  (0 <= cache_hits s <= total_urls s - not_cacheable s - errors s)%Z
  /\ match cache_hit_ratio s with
     | Int n => n = 0%Z
     | Float r => (0 <= r /\ r <= 100)%Q
     end.
Proof.
  intros Hs.
  destruct (summarize_fields _ _ Hs) as [Ht [Hh [_ [_ [_ [_ [_ [Hn [He _]]]]]]]]].
  pose proof (hits_among_cacheable results) as Hle.
  assert (H0 : (0 <= cache_hits s)%Z) by (rewrite Hh; unfold count; lia).
  split; [rewrite Ht, Hn, He, Hh in *; lia|].
  revert Hs. unfold summarize. cbv zeta.
  match goal with
  | |- context [(?ct >? 0)%Z] => destruct (Z.gtb_spec ct 0) as [Hpos|_]
  end.
  - unfold truediv.
    match goal with
    | |- context [(?ct =? 0)%Z] => destruct (Z.eqb_spec ct 0) as [E|_]; [lia|]
    end.
    cbn [bind]. intros H; inversion H; subst s; clear H.
    cbn [cache_hit_ratio round2 cache_hits total_urls not_cacheable errors] in *.
    match goal with
    | |- context [round_half_even ?y] =>
        assert (Hy : (0 <= y)%Q /\ (y <= inject_Z 10000)%Q)
    end.
    { match goal with
      | |- context [(inject_Z ?h / inject_Z ?c)%Q] =>
          assert (Hc : (inject_Z 0 < inject_Z c)%Q) by (rewrite <- Zlt_Qlt; lia);
          assert (Hh0 : (inject_Z 0 <= inject_Z h)%Q) by (rewrite <- Zle_Qle; lia);
          change (inject_Z 0) with 0%Q in Hc, Hh0;
          assert (Hhc : (inject_Z h <= inject_Z c)%Q) by (rewrite <- Zle_Qle; lia);
          assert (Hq0 : (0 <= inject_Z h / inject_Z c)%Q)
            by (apply Qle_shift_div_l; [exact Hc|rewrite Qmult_0_l; exact Hh0]);
          assert (Hq1 : (inject_Z h / inject_Z c <= 1)%Q)
            by (apply Qle_shift_div_r; [exact Hc|rewrite Qmult_1_l; exact Hhc]);
          generalize dependent (inject_Z h / inject_Z c)%Q
      end.
      intros q Hq0 Hq1. change (inject_Z 10000) with 10000%Q. split; lra. }
    destruct Hy as [Hy0 Hy1].
    pose proof (round_half_even_range _ _ Hy0 Hy1) as [Hr0 Hr1].
    rewrite Zle_Qle in Hr0, Hr1.
    change (inject_Z 0) with 0%Q in Hr0. change (inject_Z 10000) with 10000%Q in Hr1.
    match goal with
    | |- context [inject_Z (round_half_even ?y)] =>
        generalize dependent (inject_Z (round_half_even y))
    end.
    intros k Hk0 Hk1. unfold Qdiv. change (/ 100)%Q with (1 # 100)%Q. split; lra.
  - cbn [bind]. intros H; inversion H; reflexivity.
Qed.

Lemma X15_hit_ratio_range_witness :
  exists s : Summary,
    summarize mixed_results = Ok s
    /\ match cache_hit_ratio s with
       | Int n => n = 0%Z
       | Float r => (0 <= r /\ r <= 100)%Q
       end.
Proof.
  destruct (summarize_total mixed_results) as [s Hs].
  exists s. split; [exact Hs|].
  exact (proj2 (X15_hit_ratio_range mixed_results s Hs)).
Defined.

End RunMore.

(* ===================================================================== *)
(** * Properties of the sitemap resolver *)
(* ===================================================================== *)

Section SitemapFacts.

Import Probe Run Spec Sitemap.

Lemma texts_truthy (elements : list (option string)) :
  Forall (fun u => truthy u = true) (texts elements).
Proof.
  unfold texts. apply Forall_forall. intros u Hin. apply in_flat_map in Hin.
  destruct Hin as [[t|] [_ Hin]]; [|destruct Hin].
  destruct (truthy t) eqn:E; [|destruct Hin].
  destruct Hin as [<-|[]]. exact E.
Qed.

(** The loop over the entries of an index, when every entry resolves. *)
Lemma index_loop_ok (parse : option string -> result (list string))
      (locs : list (option string)) (lists : list (list string)) (acc : list string) :
  Forall2 (fun loc us => parse loc = Ok us) locs lists ->
  Sitemap.for_each locs (fun urls loc => more <- parse loc ;; Ok (urls ++ more)) acc
  = Ok (acc ++ concat lists).
Proof.
  intros H. revert acc. induction H as [|loc us locs lists Hloc _ IH]; intros acc;
    cbn [Sitemap.for_each concat].
  - rewrite app_nil_r. reflexivity.
  - rewrite Hloc. cbn [bind]. rewrite IH, app_assoc. reflexivity.
Qed.

(** The loop stops at the first entry that fails. *)
Lemma index_loop_fail (parse : option string -> result (list string))
      (before after : list (option string)) (loc : option string)
      (lists : list (list string)) (acc : list string) (e : exn) :
  Forall2 (fun loc us => parse loc = Ok us) before lists ->
  parse loc = Raise e ->
  Sitemap.for_each (before ++ loc :: after)
    (fun urls loc => more <- parse loc ;; Ok (urls ++ more)) acc
  = Raise e.
Proof.
  intros H Hloc. revert acc. induction H as [|l us ls lists Hl _ IH]; intros acc;
    cbn [Sitemap.for_each app].
  - rewrite Hloc. reflexivity.
  - rewrite Hl. cbn [bind]. apply IH.
Qed.

Lemma index_loop_truthy (parse : option string -> result (list string))
      (locs : list (option string)) (acc urls : list string) :
  (forall loc us, parse loc = Ok us -> Forall (fun u => truthy u = true) us) ->
  Forall (fun u => truthy u = true) acc ->
  Sitemap.for_each locs (fun urls loc => more <- parse loc ;; Ok (urls ++ more)) acc
  = Ok urls ->
  Forall (fun u => truthy u = true) urls.
Proof.
  intros Hparse. revert acc. induction locs as [|loc locs IH]; intros acc Hacc;
    cbn [Sitemap.for_each].
  - intros H; inversion H; subst. exact Hacc.
  - destruct (parse loc) as [us|e] eqn:Hloc; cbn [bind]; [|discriminate].
    apply IH. apply Forall_app. split; [exact Hacc|eapply Hparse, Hloc].
Qed.

Lemma parse_sitemap_truthy load depth url urls :
  parse_sitemap load depth url = Ok urls ->
  Forall (fun u => truthy u = true) urls.
Proof.
  revert url urls; induction depth as [|d IH]; intros url urls; cbn [parse_sitemap].
  - discriminate.
  - destruct (load url) as [root|e]; cbn [bind reraise]; [|discriminate].
    destruct (Scorer.nonempty (sitemap_locs root)).
    + unfold reraise.
      destruct (Sitemap.for_each _ _ _) as [us|e] eqn:Hloop; [|discriminate].
      intros H; inversion H; subst.
      eapply index_loop_truthy; [|constructor|exact Hloop].
      intros loc0 us0 H0. eapply IH, H0.
    + cbn [reraise]. intros H; inversion H; subst. apply texts_truthy.
Qed.

(** X17.  The resolver never returns an empty URL: every string in its
    result is non-empty.  For a document without sitemap entries the
    result is the texts of its URL entries in document order, the entries
    with no text or an empty text left out. *)
Theorem X17_sitemap_urls_nonempty (load : option string -> result Document)
        (depth : nat) (url : option string) :
  (forall urls, parse_sitemap load depth url = Ok urls ->
                Forall (fun u => truthy u = true) urls)
  /\ (forall root d,
        depth = S d -> load url = Ok root -> sitemap_locs root = [] ->
        parse_sitemap load depth url = Ok (texts (url_locs root))).
Proof.
  split.
  - intros urls. apply parse_sitemap_truthy.
  - intros root d -> Hload Hlocs. cbn [parse_sitemap]. rewrite Hload. cbn [bind].
    rewrite Hlocs. reflexivity.
Qed.

(** X18.  For a sitemap index, when every listed sitemap resolves, the
    result is the concatenation of their URL lists in the order of the
    index; the URL entries of the index document itself are not read. *)
Theorem X18_index_concatenates (load : option string -> result Document) (d : nat)
        (url : option string) (root : Document) (loc : option string)
        (locs : list (option string)) (lists : list (list string)) :
  load url = Ok root ->
  sitemap_locs root = loc :: locs ->
  Forall2 (fun l us => parse_sitemap load d l = Ok us) (loc :: locs) lists ->
  parse_sitemap load (S d) url = Ok (concat lists).
Proof.
  intros Hload Hlocs Hall. cbn [parse_sitemap]. rewrite Hload. cbn [bind].
  rewrite Hlocs. cbn [Scorer.nonempty].
  rewrite (index_loop_ok (parse_sitemap load d) _ _ [] Hall). reflexivity.
Qed.

Lemma X18_index_concatenates_witness :
  parse_sitemap sample_load 2 (Some "https://example.com/index.xml")
  = Ok ["https://example.com/1"; "https://example.com/2"; "https://example.com/3"].
Proof.
  apply (X18_index_concatenates sample_load 1 (Some "https://example.com/index.xml")
           (mkDocument [Some "https://example.com/a.xml"; Some "https://example.com/b.xml"]
                       [Some "https://example.com/ignored"])
           (Some "https://example.com/a.xml") [Some "https://example.com/b.xml"]
           [["https://example.com/1"; "https://example.com/2"]; ["https://example.com/3"]]);
    [reflexivity | reflexivity |].
  repeat constructor.
Defined.

(** X19.  A sitemap index gives no partial result: at the first listed
    sitemap that fails, the sitemaps before it having resolved, the whole
    call fails, and its message is the message of that failure behind the
    prefix "Error parsing sitemap: ". *)
Theorem X19_index_aborts (load : option string -> result Document) (d : nat)
        (url : option string) (root : Document) (before : list (option string))
        (loc : option string) (after : list (option string))
        (lists : list (list string)) (e : exn) :
  load url = Ok root ->
  sitemap_locs root = before ++ loc :: after ->
  Forall2 (fun l us => parse_sitemap load d l = Ok us) before lists ->
  parse_sitemap load d loc = Raise e ->
  parse_sitemap load (S d) url
  = Raise (OtherException ("Error parsing sitemap: " ++ str_of_exn e)).
Proof.
  intros Hload Hlocs Hall Hloc. cbn [parse_sitemap]. rewrite Hload. cbn [bind].
  rewrite Hlocs.
  assert (Hne : Scorer.nonempty (before ++ loc :: after) = true)
    by (destruct before; reflexivity).
  rewrite Hne.
  rewrite (index_loop_fail (parse_sitemap load d) _ _ _ _ [] e Hall Hloc). reflexivity.
Qed.

Lemma X19_index_aborts_witness :
  parse_sitemap sample_load 2 (Some "https://example.com/broken.xml")
  = Raise (OtherException
             "Error parsing sitemap: Error parsing sitemap: 404 Client Error: Not Found").
Proof.
  apply (X19_index_aborts sample_load 1 (Some "https://example.com/broken.xml")
           (mkDocument [Some "https://example.com/a.xml";
                        Some "https://example.com/missing.xml";
                        Some "https://example.com/b.xml"] [])
           [Some "https://example.com/a.xml"] (Some "https://example.com/missing.xml")
           [Some "https://example.com/b.xml"]
           [["https://example.com/1"; "https://example.com/2"]]
           (OtherException "Error parsing sitemap: 404 Client Error: Not Found"));
    [reflexivity | reflexivity | | reflexivity].
  repeat constructor.
Defined.

(** The loop over an index fails as soon as one entry does. *)
Lemma index_loop_raises (parse : option string -> result (list string))
      (locs : list (option string)) (loc : option string) (acc : list string) (e : exn) :
  In loc locs -> parse loc = Raise e ->
  exists e',
    Sitemap.for_each locs (fun urls loc => more <- parse loc ;; Ok (urls ++ more)) acc
    = Raise e'.
Proof.
  intros Hin Hloc. revert acc. induction locs as [|l locs IH]; intros acc;
    [destruct Hin|]. cbn [Sitemap.for_each].
  destruct (parse l) as [us|e0] eqn:Hl; cbn [bind]; [|eauto].
  destruct Hin as [->|Hin]; [congruence|]. apply IH, Hin.
Qed.

(** X20.  A sitemap index that lists itself, alone or among other
    sitemaps, never yields URLs: whatever the number of nested calls the
    interpreter allows, the call fails with a message that starts with
    "Error parsing sitemap: ". *)
Theorem X20_self_listing_index (load : option string -> result Document)
        (url : string) (root : Document) :
  load (Some url) = Ok root ->
  In (Some url) (sitemap_locs root) ->
  forall depth, exists msg,
    parse_sitemap load depth (Some url)
    = Raise (OtherException ("Error parsing sitemap: " ++ msg)).
Proof.
  intros Hload Hin depth. induction depth as [|d [msg IH]]; cbn [parse_sitemap].
  - eexists. reflexivity.
  - rewrite Hload. cbn [bind].
    assert (Hne : Scorer.nonempty (sitemap_locs root) = true)
      by (destruct (sitemap_locs root); [destruct Hin|reflexivity]).
    rewrite Hne.
    destruct (index_loop_raises (parse_sitemap load d) _ _ [] _ Hin IH) as [e' ->].
    cbn [reraise]. eexists. reflexivity.
Qed.

Lemma X20_self_listing_index_witness :
  exists msg,
    parse_sitemap sample_load 5 (Some "https://example.com/cycle.xml")
    = Raise (OtherException ("Error parsing sitemap: " ++ msg)).
Proof.
  apply (X20_self_listing_index sample_load "https://example.com/cycle.xml"
           (mkDocument [Some "https://example.com/a.xml";
                        Some "https://example.com/cycle.xml";
                        Some "https://example.com/b.xml"] [])).
  - reflexivity.
  - right. left. reflexivity.
Defined.

Lemma parse_sitemap_wrapped load depth url e :
  parse_sitemap load depth url = Raise e ->
  exists msg, e = OtherException ("Error parsing sitemap: " ++ msg).
Proof.
  destruct depth as [|d]; cbn [parse_sitemap]; unfold reraise.
  - intros H; inversion H. eexists. reflexivity.
  - match goal with
    | |- match ?b with _ => _ end = _ -> _ => destruct b
    end; intros H; inversion H. eexists. reflexivity.
Qed.

(** X21.  With the resolver in place, a failure of the resolver is what
    the route answers: status 500 with a message that starts with "Error
    parsing sitemap: ", after the sitemap fetch and before any probe. *)
Theorem X21_resolver_failure_reported (load : option string -> result Document)
        (depth : nat) (env : Env) (data : Request) (e : exn) :
  let u := strip (match sitemap_url data with Some u => u | None => "" end) in
  truthy u = true ->
  parse_sitemap load depth (Some u) = Raise e ->
  exists msg,
    test_sitemap (with_resolver load depth env) data
    = (Ok (ErrorReply ("Error parsing sitemap: " ++ msg) 500), [EvParseSitemap u]).
Proof.
  cbv zeta. intros Ht He.
  pose proof (sitemap_step_fatal (with_resolver load depth env) data Ht) as H.
  cbv zeta in H. cbn [with_resolver Run.parse_sitemap] in H. rewrite He in H.
  destruct (parse_sitemap_wrapped _ _ _ _ He) as [msg ->].
  exists msg. exact H.
Qed.

Lemma X21_resolver_failure_reported_witness :
  exists msg,
    test_sitemap (with_resolver sample_load 3 one_page_env)
      (mkRequest (Some "https://example.com/missing.xml") None None None None)
    = (Ok (ErrorReply ("Error parsing sitemap: " ++ msg) 500),
       [EvParseSitemap "https://example.com/missing.xml"]).
Proof.
  apply (X21_resolver_failure_reported sample_load 3 one_page_env
           (mkRequest (Some "https://example.com/missing.xml") None None None None)
           (OtherException "Error parsing sitemap: 404 Client Error: Not Found"));
    reflexivity.
Defined.

End SitemapFacts.
